(** * omega-agi-system: coordination protocol, enhancement pipeline,
      agentic facade and evolution cycle

    A shallow embedding of the stateful core of
    [src/lib/system-bootstrap.ts], [src/lib/agentic-api.ts] and
    [src/lib/omega-orchestrator.ts], with the properties of the design
    specification stated and settled against it.

    Conventions.
    - A JavaScript [number] that the program uses as an integer (a
      [Date.now()] timestamp in milliseconds, a counter, a retry budget, an
      array index) is a [Z]; a [number] that the program computes with
      fractions (a load percentage, a mean) is an IEEE-754 binary64 [float],
      which is what a JavaScript number is.
    - A JavaScript string is a [string]; [includes], [replace], [indexOf] and
      [splice] are written out below.
    - An [async] method is a computation in a state-and-exception monad over
      the world it can touch; a rejected promise is a thrown [JsError]. *)

From Stdlib Require Import ZArith Ascii PrimFloat FloatOps SpecFloat FloatAxioms Lia.
From stdpp Require Import base option list gmap strings pretty.

Set Warnings "-register-all,-inexact-float".

Local Open Scope string_scope.
Local Open Scope Z_scope.

(* ===================================================================== *)
(** * JavaScript primitives used by the sources *)
(* ===================================================================== *)

Module JS.

(** [s.startsWith(p)]. *)
Fixpoint startsWith (p s : string) : bool :=
  match p, s with
  | EmptyString, _ => true
  | String a p', String b s' => if Ascii.eqb a b then startsWith p' s' else false
  | String _ _, EmptyString => false
  end.

(** [s.includes(sub)]: [sub] occurs in [s] at some offset. *)
Fixpoint includes (s sub : string) : bool :=
  startsWith sub s ||
  match s with
  | EmptyString => false
  | String _ s' => includes s' sub
  end.

(** Drop the first [n] characters. *)
Fixpoint skip (n : nat) (s : string) : string :=
  match n, s with
  | O, _ => s
  | S n', String _ s' => skip n' s'
  | S _, EmptyString => EmptyString
  end.

(** [s.replace(pat, rep)] with a string pattern: the first occurrence of
    [pat] is replaced, the rest of [s] is kept. None of the replacement
    strings in the sources contains a [$] pattern. *)
Fixpoint replace (s pat rep : string) : string :=
  if startsWith pat s then rep +:+ skip (String.length pat) s
  else match s with
       | EmptyString => EmptyString
       | String c s' => String c (replace s' pat rep)
       end.

(** [s.endsWith(suffix)]. *)
Definition endsWith (s suffix : string) : bool :=
  let n := String.length s in
  let k := String.length suffix in
  (k <=? n)%nat && String.eqb (skip (n - k) s) suffix.

(** [arr.indexOf(x)]: the first index holding [x], or [-1]. *)
Fixpoint indexOf_from (i : Z) (arr : list string) (x : string) : Z :=
  match arr with
  | [] => -1
  | y :: arr' => if String.eqb y x then i else indexOf_from (i + 1) arr' x
  end.

Definition indexOf (arr : list string) (x : string) : Z := indexOf_from 0 arr x.

(** [arr.splice(start, deleteCount)] for [0 <= start]: the array that is
    left behind. *)
Definition splice (arr : list string) (start deleteCount : Z) : list string :=
  (take (Z.to_nat start) arr ++ drop (Z.to_nat start + Z.to_nat deleteCount) arr)%list.

(** [arr.join(sep)]. *)
Fixpoint join (sep : string) (arr : list string) : string :=
  match arr with
  | [] => ""
  | [x] => x
  | x :: arr' => x +:+ sep +:+ join sep arr'
  end.

(** An integer as a JavaScript number: the binary64 float nearest to [z],
    ties to even (exact up to [2^53], an infinity beyond the largest
    finite float). *)
Definition float_of_Z (z : Z) : float :=
  SF2Prim (binary_normalize prec emax z 0 false).

(** [Math.round(x)]: the integer nearest to [x], ties towards [+Infinity];
    NaN, infinities, zeros and floats that are already integers are
    returned as they are. The value [floor(x + 1/2)] is computed exactly
    from the mantissa and exponent of [x]. *)
Definition Math_round (x : float) : float :=
  match Prim2SF x with
  | S754_finite sign m e =>
      if (0 <=? e) then x
      else
        let twice := (if sign then - Z.pos m else Z.pos m) * 2 + 2 ^ (- e) in
        let r := twice / 2 ^ (- e + 1) in
        if (r =? 0) && sign then PrimFloat.opp PrimFloat.zero
        else float_of_Z r
  | _ => x
  end.

End JS.

(* ===================================================================== *)
(** * system-bootstrap.ts: coordination record and enhancement pipeline *)
(* ===================================================================== *)

Module Bootstrap.

(** ** The coordination record ([interface CoordinationData]) *)

Inductive SystemStatus := sys_initializing | sys_active | sys_evolving | sys_idle | sys_error.
Inductive EnhancerStatus := enh_active | enh_idle | enh_error.
Inductive Mode := dual_llm | single_llm.
Inductive EvolutionStatus := evo_idle | evo_running | evo_paused.

Record Enhancer := mkEnhancer {
  activeFiles : list string;
  lastHeartbeat : Z;
  status : EnhancerStatus;
}.

Record Evolution := mkEvolution {
  cycle : Z;
  evo_status : EvolutionStatus;
  startTime : option Z;
  evo_lastUpdate : option Z;
}.

(** [omeaga_system] is the record's ['omeaga-system'] entry (this process),
    [other_enhancer] its ['other-enhancer'] entry (the peer). *)
Record CoordinationData := mkCoordinationData {
  version : string;
  lastUpdate : Z;
  systemStatus : SystemStatus;
  omeaga_system : Enhancer;
  other_enhancer : Enhancer;
  mode : Mode;
  evolution : Evolution;
}.

#[global] Instance EnhancerStatus_eq_dec : EqDecision EnhancerStatus.
Proof. solve_decision. Defined.

Definition set_lastHeartbeat (t : Z) (e : Enhancer) : Enhancer :=
  mkEnhancer (activeFiles e) t (status e).

Definition set_activeFiles (fs : list string) (e : Enhancer) : Enhancer :=
  mkEnhancer fs (lastHeartbeat e) (status e).

Definition set_omeaga_system (e : Enhancer) (c : CoordinationData) : CoordinationData :=
  mkCoordinationData (version c) (lastUpdate c) (systemStatus c) e
                     (other_enhancer c) (mode c) (evolution c).

Definition set_other_enhancer (e : Enhancer) (c : CoordinationData) : CoordinationData :=
  mkCoordinationData (version c) (lastUpdate c) (systemStatus c) (omeaga_system c)
                     e (mode c) (evolution c).

Definition set_lastUpdate (t : Z) (c : CoordinationData) : CoordinationData :=
  mkCoordinationData (version c) t (systemStatus c) (omeaga_system c)
                     (other_enhancer c) (mode c) (evolution c).

(** ** The world a method of [SystemBootstrap] can touch *)

Inductive JsError :=
  | ReferenceError (identifier : string).

(** What [console.log], [console.warn] and [console.error] receive. *)
Inductive LogEntry :=
  | Log (line : string)
  | Warn (line : string)
  | LogRecord (data : CoordinationData)      (* JSON.stringify(data, null, 2) *)
  | LogError (line : string) (e : JsError).

(** - [clock]: what [Date.now()] returns; it stands still during one call.
    - [coordination_file]: the record behind [COORDINATION_FILE], [None]
      when fetching or parsing it fails.
    - [files]: the files behind [/api/files/read] and [/api/files/write].
    - [file_writes]: every write accepted by [/api/files/write], oldest
      first; the file system an observer sees after the first [k] of them
      is [replay].
    - [console]: the lines logged so far, oldest first. *)
Record World := mkWorld {
  clock : Z;
  coordination_file : option CoordinationData;
  files : gmap string string;
  file_writes : list (string * string);
  console : list LogEntry;
}.

Inductive outcome (A : Type) :=
  | Returned (a : A)
  | Thrown (e : JsError).
Arguments Returned {A} a.
Arguments Thrown {A} e.

Definition M (A : Type) : Type := World -> outcome A * World.

Definition ret {A} (a : A) : M A := fun w => (Returned a, w).

Definition bind {A B} (m : M A) (k : A -> M B) : M B :=
  fun w => match m w with
           | (Returned a, w') => k a w'
           | (Thrown e, w') => (Thrown e, w')
           end.

Definition throw {A} (e : JsError) : M A := fun w => (Thrown e, w).

(** [try { body } catch (error) { handler(error) }]. *)
Definition try_catch {A} (body : M A) (handler : JsError -> M A) : M A :=
  fun w => match body w with
           | (Returned a, w') => (Returned a, w')
           | (Thrown e, w') => handler e w'
           end.

Declare Scope js_scope.
Delimit Scope js_scope with js.
Notation "x <- m ;; k" := (bind m (fun x => k))
  (at level 100, m at next level, right associativity) : js_scope.
Notation "m ;;; k" := (bind m (fun _ => k))
  (at level 100, right associativity) : js_scope.
Local Open Scope js_scope.

Definition Date_now : M Z := fun w => (Returned (clock w), w).

Definition console_log (e : LogEntry) : M unit :=
  fun w => (Returned tt,
            mkWorld (clock w) (coordination_file w) (files w) (file_writes w)
                    (console w ++ [e])%list).

(** [for (const x of xs) { await body(x) }]. *)
Fixpoint for_of {A} (xs : list A) (body : A -> M unit) : M unit :=
  match xs with
  | [] => ret tt
  | x :: xs' => body x ;;; for_of xs' body
  end.

(** Resolution of an identifier that a method body mentions. The module
    binds the imported singletons, [COORDINATION_FILE], [SystemBootstrap]
    and [systemBootstrap]; none of them is a coordination record, and a
    name bound neither there nor among the locals of the running method is
    a [ReferenceError] when the expression is evaluated. *)
Definition module_scope : list string :=
  [ "omegaOrchestrator"; "agenticAPI"; "internalStateTracker"; "emergenceDetector";
    "ethicalScoring"; "decisionEngine"; "temporalLogic"; "experienceDatabase";
    "semanticTaggingEngine"; "keyManagement"; "zeroKnowledgeProofs"; "codeAnalyzer";
    "agentRegistry"; "orchestrator"; "COORDINATION_FILE"; "SystemBootstrap";
    "systemBootstrap" ].

Definition identifier (locals : list (string * CoordinationData)) (x : string)
  : M CoordinationData :=
  match List.find (fun b => String.eqb (fst b) x) locals with
  | Some b => ret (snd b)
  | None => throw (ReferenceError x)
  end.

(** ** Store and file primitives *)

Definition default_coordination (now : Z) : CoordinationData :=
  mkCoordinationData "1.0" now sys_initializing
    (mkEnhancer [] now enh_active)
    (mkEnhancer [] now enh_idle)
    dual_llm
    (mkEvolution 0 evo_idle None None).

(** [readCoordinationFile]: the parsed record, or the default record when
    the fetch fails. *)
Definition readCoordinationFile : M CoordinationData :=
  fun w => match coordination_file w with
           | Some data => (Returned data, w)
           | None =>
               (console_log (Log "Failed to read coordination file:") ;;;
                now <- Date_now ;;
                ret (default_coordination now)) w
           end.

(** [writeCoordinationFile(data)]: the record is logged, as JSON, and
    nothing is stored; the file behind [COORDINATION_FILE] is as it was. *)
Definition writeCoordinationFile (data : CoordinationData) : M unit :=
  console_log (Log "SYSTEM: Writing coordination file...") ;;;
  console_log (LogRecord data).

(** [readFile(filePath)]: [data.content || ''], and [''] on failure. *)
Definition readFile (filePath : string) : M string :=
  fun w => (Returned (default "" (files w !! filePath)), w).

(** [writeFile(filePath, content)]; the file API accepts every write. *)
Definition writeFile (filePath content : string) : M unit :=
  fun w => (Returned tt,
            mkWorld (clock w) (coordination_file w)
                    (<[filePath := content]> (files w))
                    (file_writes w ++ [(filePath, content)])%list
                    (console w)).

(** The files an observer sees once the writes [ws] have landed on [fs]. *)
Definition replay (fs : gmap string string) (ws : list (string * string))
  : gmap string string :=
  fold_left (fun m w => <[w.1 := w.2]> m) ws fs.

(** ** Coordination methods *)

(** [initializeCoordination]: builds a fresh record in the local
    [coordinationData] and writes it. *)
Definition initializeCoordination : M unit :=
  console_log (Log "SYSTEM: Initializing coordination...") ;;;
  now <- Date_now ;;
  let coordinationData := default_coordination now in
  writeCoordinationFile coordinationData ;;;
  console_log (Log "SYSTEM: Coordination initialized").

Definition conflict_line : string :=
  "SYSTEM: Conflict detected - other enhancer is active".

(** [checkForConflicts]. *)
Definition checkForConflicts : M unit :=
  console_log (Log "SYSTEM: Checking for conflicts...") ;;;
  coordination <- readCoordinationFile ;;
  let otherEnhancer := other_enhancer coordination in
  now <- Date_now ;;
  let heartbeatAge := now - lastHeartbeat otherEnhancer in
  if bool_decide (status otherEnhancer = enh_active) && (heartbeatAge <? 300000) then
    console_log (Log ("SYSTEM: Other enhancer is active (heartbeat: "
                      +:+ pretty (heartbeatAge / 1000) +:+ "s ago)")) ;;;
    if (0 <? Z.of_nat (length (activeFiles otherEnhancer))) then
      console_log (Log ("SYSTEM: Other enhancer is working on "
                        +:+ pretty (Z.of_nat (length (activeFiles otherEnhancer)))
                        +:+ " files:")) ;;;
      for_of (activeFiles otherEnhancer)
             (fun file => console_log (Log ("  - " +:+ file))) ;;;
      (* Create conflict report *)
      console_log (Log conflict_line)
    else ret tt
  else
    console_log (Log "SYSTEM: No conflicts detected").

(** [updateHeartbeat]. The method reads the record into [coordination],
    assigns its two time stamps, and then hands the identifier
    [coordinationData] to [writeCoordinationFile]; its only local is
    [coordination]. *)
Definition updateHeartbeat : M unit :=
  coordination <- readCoordinationFile ;;
  now <- Date_now ;;
  let coordination :=
    set_omeaga_system (set_lastHeartbeat now (omeaga_system coordination)) coordination in
  now <- Date_now ;;
  let coordination := set_lastUpdate now coordination in
  coordinationData <- identifier [("coordination", coordination)] "coordinationData" ;;
  writeCoordinationFile coordinationData.

(** ** Enhancement pipeline *)

Record Validation := mkValidation {
  valid : bool;
  errors : list string;
}.

(** [validateEnhancements(content)]. *)
Definition validateEnhancements (content : string) : Validation :=
  let errors : list string := [] in
  (* Check if content is valid TypeScript *)
  let errors :=
    if negb (JS.includes content "export ") && negb (JS.includes content "import ")
    then (errors ++ ["Invalid TypeScript code"])%list else errors in
  (* Check for syntax errors (basic) *)
  let errors :=
    if JS.includes content "  " && JS.includes content "export default"
    then (errors ++ ["Indentation errors detected"])%list else errors in
  (* Check for common errors *)
  let errors :=
    if JS.includes content "undefined"
    then (errors ++ ["Undefined references detected"])%list else errors in
  mkValidation (length errors =? 0)%nat errors.

(** The object that [createPatch] serialises. *)
Record Patch := mkPatch {
  originalLength : Z;
  modifiedLength : Z;
  linesAdded : Z;
  timestamp : Z;
}.

(** [s.split('\n').length]. *)
Fixpoint split_lines_length (s : string) : Z :=
  match s with
  | EmptyString => 1
  | String c s' =>
      (if Ascii.eqb c "010"%char then 1 else 0) + split_lines_length s'
  end.

Definition createPatch (original modified : string) : M Patch :=
  now <- Date_now ;;
  ret (mkPatch (Z.of_nat (String.length original))
               (Z.of_nat (String.length modified))
               (split_lines_length modified - split_lines_length original)
               now).

(** [applyEnhancements(originalPath, enhancedContent)]. *)
Definition applyEnhancements (originalPath enhancedContent : string) : M unit :=
  console_log (Log ("SYSTEM: Applying enhancements to " +:+ originalPath)) ;;;
  (* Get current content *)
  currentContent <- readFile originalPath ;;
  (* Create patch *)
  patch <- createPatch currentContent enhancedContent ;;
  (* Write patched content *)
  writeFile originalPath enhancedContent ;;;
  (* Create backup *)
  writeFile (originalPath +:+ ".backup") currentContent ;;;
  console_log (Log ("SYSTEM: Enhancements applied to " +:+ originalPath
                    +:+ " (backup created)")).

(** [removeFileFromCoordination(filePath)]. As in [updateHeartbeat], the
    record is edited in the local [coordination] and the identifier
    [coordinationData] is what is handed to the write. *)
Definition removeFileFromCoordination (filePath : string) : M unit :=
  coordination <- readCoordinationFile ;;
  let index := JS.indexOf (activeFiles (other_enhancer coordination)) filePath in
  if negb (index =? -1) then
    let coordination :=
      set_other_enhancer
        (set_activeFiles (JS.splice (activeFiles (other_enhancer coordination)) index 1)
                         (other_enhancer coordination))
        coordination in
    now <- Date_now ;;
    let coordination := set_lastUpdate now coordination in
    coordinationData <- identifier [("coordination", coordination)] "coordinationData" ;;
    writeCoordinationFile coordinationData
  else ret tt.

(** [processReadyFile(filePath)]. *)
Definition processReadyFile (filePath : string) : M unit :=
  console_log (Log ("SYSTEM: Processing ready file: " +:+ filePath)) ;;;
  try_catch
    ((* Read .enhancer.ts file *)
     enhancedContent <- readFile (JS.replace filePath ".ready" ".enhancer.ts") ;;
     (* Validate enhancements *)
     let validation := validateEnhancements enhancedContent in
     if valid validation then
       console_log (Log ("SYSTEM: Enhancements validated for " +:+ filePath)) ;;;
       (* Apply to original file *)
       let originalPath := JS.replace filePath ".ready" "" in
       applyEnhancements originalPath enhancedContent ;;;
       (* Remove from coordination *)
       removeFileFromCoordination filePath ;;;
       console_log (Log ("SYSTEM: Successfully applied enhancements from " +:+ filePath))
     else
       console_log (Log ("SYSTEM: Enhancements invalid for " +:+ filePath +:+ " - "
                         +:+ JS.join ", " (errors validation))))
    (fun error =>
       console_log (LogError ("SYSTEM: Failed to process ready file " +:+ filePath +:+ ":")
                             error)).

(** [checkForEnhancerUpdates]: the peer poll that feeds the pipeline. *)
Definition checkForEnhancerUpdates : M unit :=
  coordination <- readCoordinationFile ;;
  let otherEnhancer := other_enhancer coordination in
  now <- Date_now ;;
  let updateAge := now - lastHeartbeat otherEnhancer in
  if bool_decide (status otherEnhancer = enh_active) && (updateAge <? 60000) then
    console_log (Log ("SYSTEM: Other enhancer updated recently ("
                      +:+ pretty (updateAge / 1000) +:+ "s ago)")) ;;;
    for_of (activeFiles otherEnhancer)
           (fun file =>
              if JS.endsWith file ".ready" then
                console_log (Log ("SYSTEM: Found ready file: " +:+ file)) ;;;
                processReadyFile file
              else ret tt)
  else ret tt.

(** The lines that running [m] in [w] adds to the console. *)
Definition emitted {A} (m : M A) (w : World) : list LogEntry :=
  drop (length (console w)) (console (m w).2).

(** With the write log of [m] in [w], likewise. *)
Definition writes_of {A} (m : M A) (w : World) : list (string * string) :=
  drop (length (file_writes w)) (file_writes (m w).2).

(** The world [w] with the clock reading [t]. *)
Definition at_time (t : Z) (w : World) : World :=
  mkWorld t (coordination_file w) (files w) (file_writes w) (console w).

(** ** Auxiliary notions and scenarios for the properties below *)

(** A computation that leaves files and coordination record alone. *)
Definition keeps_storage {A} (m : M A) : Prop :=
  forall w, files (m w).2 = files w
            /\ coordination_file (m w).2 = coordination_file w.

(** A computation that only adds lines to the console. *)
Definition grows {A} (m : M A) : Prop :=
  forall w, exists l, console (m w).2 = (console w ++ l)%list.

(** A computation that adds the line [e] to the console, whatever else it
    does. *)
Definition logs {A} (e : LogEntry) (m : M A) : Prop :=
  forall w, exists l1 l2, console (m w).2 = (console w ++ l1 ++ e :: l2)%list.

(** A computation that never throws. *)
Definition returns {A} (m : M A) : Prop :=
  forall w, exists a, (m w).1 = Returned a.

(** What is left of [processReadyFile] once the content is accepted and
    applied. *)
Definition after_apply (filePath : string) : M unit :=
  try_catch
    (removeFileFromCoordination filePath ;;;
     console_log (Log ("SYSTEM: Successfully applied enhancements from " +:+ filePath)))
    (fun error =>
       console_log (LogError ("SYSTEM: Failed to process ready file " +:+ filePath +:+ ":")
                             error)).

Definition apply_world : World :=
  mkWorld 0 None {[ "src/a.ts" := "old" ]} [] [].

Definition heartbeat_record : CoordinationData :=
  mkCoordinationData "1.0" 60000 sys_active
    (mkEnhancer [] 60000 enh_active)
    (mkEnhancer [] 55000 enh_idle)
    dual_llm (mkEvolution 0 evo_idle None None).

Definition heartbeat_world : World :=
  mkWorld 120000 (Some heartbeat_record) ∅ [] [].

Definition conflict_record : CoordinationData :=
  mkCoordinationData "1.0" 1000000 sys_active
    (mkEnhancer [] 1000000 enh_active)
    (mkEnhancer ["src/lib/agentic-api.ts"] 1000000 enh_active)
    dual_llm (mkEvolution 0 evo_idle None None).

Definition conflict_world : World := mkWorld 0 (Some conflict_record) ∅ [] [].

Definition pipeline_record : CoordinationData :=
  mkCoordinationData "1.0" 1000 sys_active
    (mkEnhancer [] 1000 enh_active)
    (mkEnhancer ["src/a.ts.ready"] 1000 enh_active)
    dual_llm (mkEvolution 0 evo_idle None None).

Definition pipeline_world : World :=
  mkWorld 2000 (Some pipeline_record)
          {[ "src/a.ts" := "old"; "src/a.ts.enhancer.ts" := "export const a = 1;" ]}
          [] [].

End Bootstrap.

(* ===================================================================== *)
(** * agentic-api.ts: the facade over registry and scheduler *)
(* ===================================================================== *)

Module Agentic.

(** A value of type [any]. *)
Inductive any :=
  | Undefined
  | Null
  | Bool (b : bool)
  | Num (n : Z)
  | Str (s : string)
  | Obj (fields : list (string * any)).

(** JavaScript truthiness, as [||] tests it. *)
Definition truthy (v : any) : bool :=
  match v with
  | Undefined | Null => false
  | Bool b => b
  | Num n => negb (n =? 0)
  | Str s => negb (String.eqb s "")
  | Obj _ => true
  end.

(** [v || d] on [any]. *)
Definition or_else (v d : any) : any := if truthy v then v else d.

(** [n || d] on an optional number: [undefined] and [0] are falsy. *)
Definition number_or (n : option Z) (d : Z) : Z :=
  match n with
  | Some v => if v =? 0 then d else v
  | None => d
  end.

(** An agent as [agentRegistry.getAllAgents()] returns it. *)
Inductive AgentStatus := idle | busy | offline.

#[global] Instance AgentStatus_eq_dec : EqDecision AgentStatus.
Proof. solve_decision. Defined.

Record Agent := mkAgent {
  id : string;
  name : string;
  domain : string;
  capabilities : list string;
  status : AgentStatus;
  priority : Z;
}.

Record TaskSubmission := mkTaskSubmission {
  taskId : string;
  taskDescription : string;
  taskType : string;
  sub_domain : string;
  sub_priority : Z;
  inputs : any;
  context : any;
  timeoutMs : option Z;
  maxRetries : option Z;
}.

(** The task object and the options object that [submitTask] builds. *)
Record Task := mkTask {
  task_id : string;
  task_description : string;
  task_type : string;
  task_domain : string;
  task_priority : Z;
  task_inputs : any;
  task_context : any;
}.

Record ExecuteOptions := mkExecuteOptions {
  opt_timeout : option Z;
  opt_maxRetries : Z;
}.

(** The fields of an orchestrator result that the facade reads. *)
Record TaskResult := mkTaskResult {
  success : bool;
  agentId : option string;
  res_startTime : option Z;
  res_endTime : option Z;
  res_duration : option Z;
  output : any;
  res_error : option string;
}.

Inductive TaskStatusTag := pending | in_progress | completed | failed | timeout.

Record TaskStatus := mkTaskStatus {
  ts_taskId : string;
  ts_status : TaskStatusTag;
  assignedAgent : option string;
  ts_startTime : option Z;
  ts_endTime : option Z;
  ts_duration : option Z;
  progress : float;
  result : any;
  ts_error : option string;
}.

Definition task_of (submission : TaskSubmission) : Task :=
  mkTask (taskId submission) (taskDescription submission) (taskType submission)
         (sub_domain submission) (sub_priority submission)
         (or_else (inputs submission) (Obj []))
         (or_else (context submission) (Obj [])).

Definition options_of (submission : TaskSubmission) : ExecuteOptions :=
  mkExecuteOptions (timeoutMs submission) (number_or (maxRetries submission) 3).

Definition status_of (submission : TaskSubmission) (r : TaskResult) : TaskStatus :=
  mkTaskStatus (taskId submission)
               (if success r then completed else failed)
               (agentId r) (res_startTime r) (res_endTime r) (res_duration r)
               (if success r then 1%float else 0%float)
               (output r) (res_error r).

Section Facade.

(** The scheduler behind the facade: [orchestrator.executeTask] runs over
    a state of its own. *)
Context {Sched : Type}.
Variable executeTask : Task -> ExecuteOptions -> Sched -> TaskResult * Sched.

(** [submitTask(submission)] (console output left out). *)
Definition submitTask (submission : TaskSubmission) (s : Sched) : TaskStatus * Sched :=
  let task := task_of submission in
  let '(result, s') := executeTask task (options_of submission) s in
  (status_of submission result, s').

(** [batchSubmitTasks(submissions)]. *)
Fixpoint batchSubmitTasks (submissions : list TaskSubmission) (s : Sched)
  : list TaskStatus * Sched :=
  match submissions with
  | [] => ([], s)
  | submission :: rest =>
      let '(st, s1) := submitTask submission s in
      let '(sts, s2) := batchSubmitTasks rest s1 in
      (st :: sts, s2)
  end.

End Facade.

(** ** Statistics and health *)

Definition count {A} (p : A -> bool) (l : list A) : Z :=
  Z.of_nat (length (List.filter p l)).

Definition has_status (st : AgentStatus) (agent : Agent) : bool :=
  bool_decide (status agent = st).

(** A property of the [byDomain] object as it is at run time. The object
    is a plain one ([{}]), so a lookup that finds no own property goes on to
    [Object.prototype]; [+ 1] on what it finds there gives a string, which
    the declared type [Record<string, number>] does not show. *)
Inductive PropertyValue :=
  | PNumber (n : Z)
  | PString (s : string).

(** The function-valued members of [Object.prototype], each with the name
    of the function it holds. *)
Definition Object_prototype_functions : list (string * string) :=
  [ ("constructor", "Object");
    ("__defineGetter__", "__defineGetter__");
    ("__defineSetter__", "__defineSetter__");
    ("hasOwnProperty", "hasOwnProperty");
    ("__lookupGetter__", "__lookupGetter__");
    ("__lookupSetter__", "__lookupSetter__");
    ("isPrototypeOf", "isPrototypeOf");
    ("propertyIsEnumerable", "propertyIsEnumerable");
    ("toString", "toString");
    ("valueOf", "valueOf");
    ("toLocaleString", "toLocaleString") ].

Definition Object_prototype_function (key : string) : option string :=
  snd <$> List.find (fun member => String.eqb (fst member) key) Object_prototype_functions.

(** Whether a plain object answers a lookup of [key] from its prototype:
    the accessor [__proto__] or one of the functions. *)
Definition inherited (key : string) : bool :=
  String.eqb key "__proto__" || bool_decide (is_Some (Object_prototype_function key)).

(** [String(f)] of a built-in function named [name], as Node prints it. *)
Definition native_function_text (name : string) : string :=
  "function " +:+ name +:+ "() { [native code] }".

(** [(byDomain[domain] || 0) + 1], with [own] the own properties of
    [byDomain]. *)
Definition incremented (own : gmap string PropertyValue) (domain : string)
  : PropertyValue :=
  if String.eqb domain "__proto__"
  then PString "[object Object]1"   (* the getter answers [Object.prototype] *)
  else
    match own !! domain with
    | Some (PNumber n) => PNumber (number_or (Some n) 0 + 1)
    | Some (PString s) => if String.eqb s "" then PNumber 1 else PString (s +:+ "1")
    | None =>
        match Object_prototype_function domain with
        | Some name => PString (native_function_text name +:+ "1")
        | None => PNumber 1
        end
    end.

(** [byDomain[domain] = value]: an own property is written, except that the
    setter of [__proto__] ignores a value that is not an object. *)
Definition assigned (own : gmap string PropertyValue) (domain : string)
           (value : PropertyValue) : gmap string PropertyValue :=
  if String.eqb domain "__proto__" then own else <[domain := value]> own.

Record AgentStatistics := mkAgentStatistics {
  totalAgents : Z;
  availableAgents : Z;
  busyAgents : Z;
  offlineAgents : Z;
  byDomain : gmap string PropertyValue;
  tasksCompleted : Z;
  averageTaskDuration : float;
}.

(** [getAgentStatistics()], over the registry's agents and the
    orchestrator's task results. The durations are added as the numbers
    they are, one binary64 addition per result. *)
Definition getAgentStatistics (agents : list Agent) (taskResults : list TaskResult)
  : AgentStatistics :=
  let total := Z.of_nat (length agents) in
  let available := count (has_status idle) agents in
  let busy_ := count (has_status busy) agents in
  let offline_ := count (has_status offline) agents in
  let byDomain :=
    fold_left (fun (byDomain : gmap string PropertyValue) agent =>
                 let domain := domain agent in
                 assigned byDomain domain (incremented byDomain domain))
              agents ∅ in
  let completedTasks := count success taskResults in
  let avgDuration :=
    if 0 <? completedTasks
    then PrimFloat.div
           (fold_left (fun sum result =>
                         PrimFloat.add sum
                           (JS.float_of_Z (number_or (res_duration result) 0)))
                      taskResults 0%float)
           (JS.float_of_Z completedTasks)
    else 0%float in
  mkAgentStatistics total available busy_ offline_ byDomain completedTasks avgDuration.

Record SwarmHealth := mkSwarmHealth {
  healthy : bool;
  activeAgents : Z;
  totalCapacity : Z;
  currentLoad : Z;
  loadPercentage : float;
  recommendedActions : list string;
}.

Definition near_capacity_advisory : string :=
  "Agent swarm near capacity - consider adding more agents".
Definition low_utilization_advisory : string :=
  "Low agent utilization - consider reducing agent pool".
Definition unhealthy_advisory : string :=
  "Agent swarm unhealthy - investigate agent failures".

(** The [loadPercentage] local of [getSwarmHealth], before rounding. *)
Definition raw_loadPercentage (agents : list Agent) : float :=
  let totalCapacity := Z.of_nat (length agents) in
  let currentLoad := count (has_status busy) agents in
  if 0 <? totalCapacity
  then PrimFloat.mul (PrimFloat.div (JS.float_of_Z currentLoad) (JS.float_of_Z totalCapacity))
                     100%float
  else 0%float.

(** [getSwarmHealth()]. *)
Definition getSwarmHealth (agents : list Agent) : SwarmHealth :=
  let activeAgents :=
    count (fun agent => has_status idle agent || has_status busy agent) agents in
  let totalCapacity := Z.of_nat (length agents) in
  let currentLoad := count (has_status busy) agents in
  let loadPercentage := raw_loadPercentage agents in
  let healthy := PrimFloat.ltb loadPercentage 80%float && (0 <? activeAgents) in
  let recommendedActions : list string := [] in
  let recommendedActions :=
    if PrimFloat.ltb 90%float loadPercentage
    then (recommendedActions ++ [near_capacity_advisory])%list
    else recommendedActions in
  let recommendedActions :=
    if PrimFloat.ltb (JS.float_of_Z activeAgents)
                     (PrimFloat.mul (JS.float_of_Z totalCapacity) 0.5%float)
    then (recommendedActions ++ [low_utilization_advisory])%list
    else recommendedActions in
  let recommendedActions :=
    if negb healthy
    then (recommendedActions ++ [unhealthy_advisory])%list
    else recommendedActions in
  mkSwarmHealth healthy activeAgents totalCapacity currentLoad
    (PrimFloat.div (JS.Math_round (PrimFloat.mul loadPercentage 100%float)) 100%float)
    recommendedActions.

(** ** Auxiliary notions and scenarios for the properties below *)

(** A scheduler that only records what the facade hands to it. *)
Definition recording (task : Task) (options : ExecuteOptions)
           (calls : list (Task * ExecuteOptions))
  : TaskResult * list (Task * ExecuteOptions) :=
  (mkTaskResult true None None None None Undefined None, (calls ++ [(task, options)])%list).

Definition zero_retries : TaskSubmission :=
  mkTaskSubmission "t0" "index the archive" "batch" "memory" 5 Undefined Undefined
                   (Some 2000) (Some 0).

Definition two_retries : TaskSubmission :=
  mkTaskSubmission "t2" "index the archive" "batch" "memory" 5 Undefined Undefined
                   (Some 2000) (Some 2).

Definition agent_in (st : AgentStatus) (n : string) : Agent :=
  mkAgent n n "memory" ["recall"] st 1.

(** Ten agents, nine of them busy. *)
Definition nine_of_ten : list Agent :=
  agent_in idle "a0" ::
  map (agent_in busy) ["a1"; "a2"; "a3"; "a4"; "a5"; "a6"; "a7"; "a8"; "a9"].

(** The number held by an own property, 0 when there is none. *)
Definition own_number (v : option PropertyValue) : Z :=
  match v with
  | Some (PNumber n) => n
  | _ => 0
  end.

(** The digit [1] written [n] times: what [n] rounds of [+ 1] append to a
    string. *)
Fixpoint ones (n : nat) : string :=
  match n with
  | O => ""
  | S n' => ones n' +:+ "1"
  end.

(** The durations of [taskResults] added up as [reduce] adds them. *)
Definition total_duration (taskResults : list TaskResult) : float :=
  fold_left (fun sum result =>
               PrimFloat.add sum (JS.float_of_Z (number_or (res_duration result) 0)))
            taskResults 0%float.

(** The mean as the specification words it: the durations of the successful
    records summed, divided by the number of successful records, and 0 when
    there is none. *)
Definition mean_successful_duration (taskResults : list TaskResult) : float :=
  let successful := List.filter success taskResults in
  if 0 <? Z.of_nat (length successful)
  then PrimFloat.div (total_duration successful)
                     (JS.float_of_Z (Z.of_nat (length successful)))
  else 0%float.

Definition finished (ok : bool) (duration : Z) : TaskResult :=
  mkTaskResult ok (Some "a1") (Some 0) (Some duration) (Some duration) Undefined
               (if ok then None else Some "executor failed").

(** One success of 10 ms and one failure of 20 ms. *)
Definition mixed_results : list TaskResult := [finished true 10; finished false 20].

End Agentic.

(* ===================================================================== *)
(** * The task scheduler behind the facade *)
(* ===================================================================== *)

Module Scheduler.
Import Agentic.

(** Modelled from the spec: the source of [orchestrator.executeTask],
    [lib/agents/orchestrator], and of the registry, [lib/agents/agent-registry],
    is not in the repository snapshot; this module follows the Task
    Scheduler of the design specification.

    Outcome of one run of the opaque executor bound to an agent: what it
    answers and after how many milliseconds. *)
Inductive Execution :=
  | Succeeds (out : any) (elapsed : Z)
  | Fails (err : string) (elapsed : Z).

(** Modelled from the spec: the lifecycle states of a task record (source
    missing, as above). *)
Inductive RecordStatus :=
  | rs_pending | rs_in_progress | rs_completed | rs_failed | rs_timeout | rs_cancelled.

(** Modelled from the spec: the task record (source missing, as above). *)
Record TaskRecord := mkTaskRecord {
  rec_task : Task;
  rec_status : RecordStatus;
  assignedAgentId : option string;
  rec_startTime : option Z;
  rec_endTime : option Z;
  rec_result : any;
  rec_error : option string;
}.

(** Modelled from the spec: the scheduler's state (source missing, as
    above): the registry's agents, how many tasks each agent has completed
    in the current window, the task records, and the time. *)
Record State := mkState {
  agents : list Agent;
  completedBy : gmap string Z;
  records : list TaskRecord;
  now : Z;
}.

(** Modelled from the spec: [updateStatus(id, status)] of the registry
    (source missing, as above), on an agent that is registered. *)
Definition set_status (agentId : string) (st : AgentStatus) (l : list Agent) : list Agent :=
  map (fun a => if String.eqb (id a) agentId
                then mkAgent (id a) (name a) (domain a) (capabilities a) st (priority a)
                else a) l.

(** Modelled from the spec: the completed tasks of an agent in the current
    window (source missing, as above). *)
Definition completed_count (s : State) (a : Agent) : Z :=
  default 0 (completedBy s !! id a).

(** Modelled from the spec: candidate selection of [execute] (the source of
    [orchestrator.executeTask], [lib/agents/orchestrator], is not in the
    repository snapshot). Candidates match the task's domain exactly and
    are idle. *)
Definition candidates (task : Task) (s : State) : list Agent :=
  List.filter (fun a => String.eqb (domain a) (task_domain task) && has_status idle a)
              (agents s).

(** Modelled from the spec: the tie-break of [execute] (source missing as
    for [candidates]): highest priority first, then fewest completed tasks;
    among full ties the earliest registered agent stays. *)
Definition preferred (s : State) (a b : Agent) : bool :=
  (priority b <? priority a)
  || ((priority a =? priority b) && (completed_count s a <? completed_count s b)).

(** Modelled from the spec: steps 1 and 2 of [execute] (source missing, as
    above): the preferred candidate, if there is a candidate. *)
Definition select (task : Task) (s : State) : option Agent :=
  fold_left (fun best a =>
               match best with
               | None => Some a
               | Some b => if preferred s a b then Some a else Some b
               end)
            (candidates task s) None.

(** Modelled from the spec: retry back-off of [execute] (source missing as
    for [candidates]): base 250ms, doubling, capped at 4s. *)
Definition backoff (attempt : nat) : Z := Z.min (250 * 2 ^ Z.of_nat attempt) 4000.

(** Modelled from the spec: the error names of the taxonomy (source
    missing, as above). *)
Definition NoAgentAvailable : string := "NoAgentAvailable".

(** Modelled from the spec: the error of a timed-out task (source missing, as
    above). *)
Definition Timeout : string := "Timeout".

Section Execute.

(** The opaque per-agent executor; the [nat] is the attempt number. *)
Variable executor : Agent -> Task -> nat -> Execution.

(** Modelled from the spec: the record of a task that reached a terminal
    state (source missing, as above). *)
Definition close_record (task : Task) (st : RecordStatus) (a : option Agent)
           (started ended : option Z) (out : any) (err : option string) : TaskRecord :=
  mkTaskRecord task st (id <$> a) started ended out err.

(** Modelled from the spec: [execute(task, {timeoutMs, maxRetries})],
    steps 1 to 8 of the Task Scheduler (the source of
    [orchestrator.executeTask] is not in the repository snapshot).
    [retries] is the remaining retry budget, [attempt] the number of
    dispatches made so far. A failed or timed-out attempt that has budget
    left releases its agent before selection is entered again. *)
Fixpoint execute (retries attempt : nat) (task : Task) (timeoutMs : option Z)
         (s : State) : TaskResult * State :=
  match select task s with
  | None =>
      (* step 3: fail at once, nothing dispatched, nothing queued *)
      (mkTaskResult false None None None None Undefined (Some NoAgentAvailable),
       mkState (agents s) (completedBy s)
               (records s ++ [close_record task rs_failed None None (Some (now s))
                                           Undefined (Some NoAgentAvailable)])%list
               (now s))
  | Some agent =>
      (* step 4: mark busy, in_progress with startTime = now *)
      let started := now s in
      let busy_agents := set_status (id agent) busy (agents s) in
      (* step 5: run the executor against the timeout *)
      let run := executor agent task attempt in
      let elapsed := match run with Succeeds _ e | Fails _ e => e end in
      let timed_out := match timeoutMs with
                       | Some t => t <=? elapsed
                       | None => false
                       end in
      let ended := started + (if timed_out then default 0 timeoutMs else elapsed) in
      let released := set_status (id agent) idle busy_agents in
      match run, timed_out with
      | Succeeds out _, false =>
          (* step 6 *)
          (mkTaskResult true (Some (id agent)) (Some started) (Some ended)
                        (Some (ended - started)) out None,
           mkState released
                   (<[id agent := completed_count s agent + 1]> (completedBy s))
                   (records s ++ [close_record task rs_completed (Some agent)
                                               (Some started) (Some ended) out None])%list
                   ended)
      | _, _ =>
          let err := match run, timed_out with
                     | Fails e _, false => e
                     | _, _ => Timeout
                     end in
          match retries with
          | S retries' =>
              (* steps 7 and 8 with budget left: back off, select again *)
              execute retries' (S attempt) task timeoutMs
                      (mkState released (completedBy s) (records s)
                               (ended + backoff attempt))
          | O =>
              (mkTaskResult false (Some (id agent)) (Some started) (Some ended)
                            (Some (ended - started)) Undefined (Some err),
               mkState released (completedBy s)
                       (records s ++ [close_record task
                                        (if timed_out then rs_timeout else rs_failed)
                                        (Some agent) (Some started) (Some ended)
                                        Undefined (Some err)])%list
                       ended)
          end
      end
  end.

(** Modelled from the spec: [orchestrator.executeTask(task, { timeout,
    maxRetries })] (source missing, as above), as [execute] with the whole
    retry budget. *)
Definition executeTask (task : Task) (options : ExecuteOptions) (s : State)
  : TaskResult * State :=
  execute (Z.to_nat (opt_maxRetries options)) 0 task (opt_timeout options) s.

End Execute.

(** ** A scenario for the properties below *)

(** The end-to-end example: a submission for [memory] with nothing
    registered for that domain. *)
Definition t1 : TaskSubmission :=
  mkTaskSubmission "t1" "recall the session" "query" "memory" 5 Undefined Undefined
                   (Some 2000) (Some 1).

Definition no_memory_agents : State :=
  mkState [mkAgent "r1" "reasoner" "reasoning" ["plan"] idle 3;
           mkAgent "m1" "archivist" "memory" ["recall"] busy 7]
          ∅ [] 1000.

Definition always_succeeds (a : Agent) (t : Task) (attempt : nat) : Execution :=
  Succeeds (Str "done") 10.

End Scheduler.

(* ===================================================================== *)
(** * omega-orchestrator.ts: calls of [executeEvolutionCycle] *)
(* ===================================================================== *)

Module Omega.

(** The orchestrator seen from the event loop. [executeEvolutionCycle] is
    an [async] method: a call runs up to its first [await] and is then
    suspended; it continues, one [await] at a time, when the event loop
    resumes it. [suspended] lists the calls in flight, oldest first, each
    with the number of the phase it is waiting for (1 to 6). Phases 1 to 6
    read [learningCycles] and do not assign it; phase 7 assigns
    [evolutionRate]. *)
Record Orchestrator := mkOrchestrator {
  learningCycles : Z;
  evolutionRate : float;
  suspended : list nat;
}.

(** The sample [improvementPercentage] that [evaluateEvolution] returns. *)
Definition improvementPercentage : float := 15.3%float.

(** The synchronous prefix of [executeEvolutionCycle()]: the counter is
    incremented, phase 1 is called and awaited. *)
Definition executeEvolutionCycle (o : Orchestrator) : Orchestrator :=
  mkOrchestrator (learningCycles o + 1) (evolutionRate o) (suspended o ++ [1%nat])%list.


End Omega.

(* ===================================================================== *)
(** * omega-orchestrator.ts: the class and its timers *)
(* ===================================================================== *)

Module OmegaClass.

(** The functions that the class hands to [setInterval]. *)
Inductive Callback :=
  | evolution_callback       (* async () => { await this.executeEvolutionCycle(); } *)
  | coordination_callback.   (* async () => { await this.checkForEnhancerUpdates(); } *)

#[global] Instance Callback_eq_dec : EqDecision Callback.
Proof. solve_decision. Defined.

(** The singleton: its cycle counter, the intervals registered so far
    (callback and period in milliseconds, oldest first) and the lines
    logged so far. *)
Record Instance := mkInstance {
  learningCycles : Z;
  intervals : list (Callback * Z);
  console : list string;
}.

Definition console_log (line : string) (o : Instance) : Instance :=
  mkInstance (learningCycles o) (intervals o) (console o ++ [line])%list.

Definition setInterval (callback : Callback) (period : Z) (o : Instance) : Instance :=
  mkInstance (learningCycles o) (intervals o ++ [(callback, period)])%list (console o).

(** The first declaration of [startEvolutionCycle], [private
    startEvolutionCycle(): void]. *)
Definition startEvolutionCycle_private (o : Instance) : Instance :=
  let o :=
    console_log "OMEGA: Starting evolution cycle (I.J. Good's Intelligence Explosion)..." o in
  (* Run evolution cycle every 60 seconds *)
  let o := setInterval evolution_callback 60000 o in
  console_log "OMEGA: Evolution cycle started" o.

(** [private startDualLLMCoordination(): void]. *)
Definition startDualLLMCoordination (o : Instance) : Instance :=
  let o := console_log "OMEGA: Starting dual-LLM coordination..." o in
  (* Monitor for LLM-1 enhancements *)
  let o := setInterval coordination_callback 120000 o in
  console_log "OMEGA: Dual-LLM coordination started" o.

(** The object that the second declaration returns. *)
Record EvolutionStatusReport := mkEvolutionStatusReport {
  cycle : Z;
  status : string;
  progress : Z;
  strategies : list string;
  applied : Z;
  improvement : float;
}.

(** The second declaration of [startEvolutionCycle], [startEvolutionCycle():
    any]: it reads the counter and touches nothing. *)
Definition startEvolutionCycle_public (o : Instance) : EvolutionStatusReport :=
  mkEvolutionStatusReport (learningCycles o) "running" 30 [] 5 15.3%float.

(** A method of the class: one that returns nothing and may change the
    instance, or one that returns a report and changes nothing. *)
Inductive Method :=
  | Procedure (body : Instance -> Instance)
  | Report (body : Instance -> EvolutionStatusReport).

(** The declarations of the two names in the class body, in source order.
    [startEvolutionCycle] is declared twice. *)
Definition class_body : list (string * Method) :=
  [ ("startEvolutionCycle", Procedure startEvolutionCycle_private);
    ("startDualLLMCoordination", Procedure startDualLLMCoordination);
    ("startEvolutionCycle", Report startEvolutionCycle_public) ].

(** [this.name]: the methods of a class body are defined on the prototype
    one after the other, so of two declarations of one name the later is
    the one a lookup finds. *)
Definition method (name : string) : option Method :=
  snd <$> last (List.filter (fun declaration => String.eqb (fst declaration) name)
                            class_body).

(** [this.name();] as a statement: what the method returns is dropped.
    [None] stands for the [TypeError] of calling what is not a function. *)
Definition call_statement (name : string) (o : Instance) : option Instance :=
  match method name with
  | Some (Procedure body) => Some (body o)
  | Some (Report body) => Some o
  | None => None
  end.

(** Phases 7 and 8 of [initialize()]: [this.startEvolutionCycle();
    this.startDualLLMCoordination();]. *)
Definition initialize_phases_7_8 (o : Instance) : option Instance :=
  o ← call_statement "startEvolutionCycle" o;
  call_statement "startDualLLMCoordination" o.

(** The [evolution] object in the response of [POST
    /api/llm2/evolution/start], built from
    [omegaOrchestrator.startEvolutionCycle()]. [None] stands for the error
    response. *)
Definition POST (o : Instance) : option EvolutionStatusReport :=
  match method "startEvolutionCycle" with
  | Some (Report body) =>
      let evolutionStatus := body o in
      Some (mkEvolutionStatusReport (cycle evolutionStatus) "running"
              (progress evolutionStatus) (strategies evolutionStatus)
              (applied evolutionStatus) (improvement evolutionStatus))
  | _ => None
  end.

(** The instance as constructed. *)
Definition constructed : Instance := mkInstance 0 [] [].

End OmegaClass.

(* ===================================================================== *)
(** * system-bootstrap.ts: status updates, boot, shutdown, restart *)
(* ===================================================================== *)

Module BootSequence.
Import Bootstrap.
Local Open Scope js_scope.

Definition set_systemStatus (st : SystemStatus) (c : CoordinationData) : CoordinationData :=
  mkCoordinationData (version c) (lastUpdate c) st (omeaga_system c)
                     (other_enhancer c) (mode c) (evolution c).

Definition set_evolution (e : Evolution) (c : CoordinationData) : CoordinationData :=
  mkCoordinationData (version c) (lastUpdate c) (systemStatus c) (omeaga_system c)
                     (other_enhancer c) (mode c) e.

#[global] Instance EvolutionStatus_eq_dec : EqDecision EvolutionStatus.
Proof. solve_decision. Defined.

#[global] Instance Mode_eq_dec : EqDecision Mode.
Proof. solve_decision. Defined.

(** [!t] on an optional time stamp: [undefined] and [0] are falsy. *)
Definition falsy_time (t : option Z) : bool :=
  match t with
  | Some v => v =? 0
  | None => true
  end.

(** [updateCoordinationStatus(status)]. *)
Definition updateCoordinationStatus (status : SystemStatus) : M unit :=
  coordination <- readCoordinationFile ;;
  let coordination := set_systemStatus status coordination in
  now <- Date_now ;;
  let coordination := set_lastUpdate now coordination in
  coordinationData <- identifier [("coordination", coordination)] "coordinationData" ;;
  writeCoordinationFile coordinationData.

(** [updateEvolutionStatus(status, cycle?)]. *)
Definition updateEvolutionStatus (status : EvolutionStatus) (cycle : option Z) : M unit :=
  coordination <- readCoordinationFile ;;
  started <-
    (if bool_decide (status = evo_running) && falsy_time (startTime (evolution coordination))
     then (now <- Date_now ;; ret (Some now))
     else ret (startTime (evolution coordination))) ;;
  let cycle' := match cycle with
                | Some n => n
                | None => Bootstrap.cycle (evolution coordination)
                end in
  now <- Date_now ;;
  let coordination :=
    set_evolution (mkEvolution cycle' status started (Some now)) coordination in
  now <- Date_now ;;
  let coordination := set_lastUpdate now coordination in
  coordinationData <- identifier [("coordination", coordination)] "coordinationData" ;;
  writeCoordinationFile coordinationData.

(** ** The bootstrap object and the timers it registers *)

(** What a method of the boot sequence can throw: an error raised by the
    runtime inside the coordination methods, or an [Error] object with a
    message. *)
Inductive Exception :=
  | Js (e : JsError)
  | Error (message : string).

(** [error.message]. *)
Definition message (e : Exception) : string :=
  match e with
  | Js (ReferenceError x) => x +:+ " is not defined"
  | Error m => m
  end.

(** The periodic jobs handed to [setInterval]. *)
Inductive Job :=
  | heartbeat_job               (* async () => { await this.updateHeartbeat(); } *)
  | enhancer_monitoring_job.    (* async () => { await this.checkForEnhancerUpdates(); } *)

(** The singleton's private fields, the intervals registered so far (job
    and period in milliseconds, oldest first), and the world of the
    coordination methods. *)
Record Process := mkProcess {
  isInitialized : bool;
  isBooted : bool;
  initializationStartTime : Z;
  intervals : list (Job * Z);
  world : World;
}.

Inductive result (A : Type) :=
  | Ok (a : A)
  | Raise (e : Exception).
Arguments Ok {A} a.
Arguments Raise {A} e.

Definition B (A : Type) : Type := Process -> result A * Process.

Definition retB {A} (a : A) : B A := fun p => (Ok a, p).

Definition bindB {A T} (m : B A) (k : A -> B T) : B T :=
  fun p => match m p with
           | (Ok a, p') => k a p'
           | (Raise e, p') => (Raise e, p')
           end.

Definition raise {A} (e : Exception) : B A := fun p => (Raise e, p).

(** [try { body } catch (error) { handler(error) }] in the boot sequence. *)
Definition try_catchB {A} (body : B A) (handler : Exception -> B A) : B A :=
  fun p => match body p with
           | (Ok a, p') => (Ok a, p')
           | (Raise e, p') => handler e p'
           end.

Declare Scope boot_scope.
Delimit Scope boot_scope with boot.
Notation "x <~ m ;; k" := (bindB m (fun x => k))
  (at level 100, m at next level, right associativity) : boot_scope.
Notation "m ;;> k" := (bindB m (fun _ => k))
  (at level 100, right associativity) : boot_scope.
Local Open Scope boot_scope.

Definition with_world (w : World) (p : Process) : Process :=
  mkProcess (isInitialized p) (isBooted p) (initializationStartTime p) (intervals p) w.

(** A coordination method called from the boot sequence. *)
Definition lift {A} (m : M A) : B A :=
  fun p => match m (world p) with
           | (Returned a, w') => (Ok a, with_world w' p)
           | (Thrown e, w') => (Raise (Js e), with_world w' p)
           end.

(** A call into another module, which sees the world and not the private
    fields of the bootstrap object. *)
Definition call {A} (f : World -> result A * World) : B A :=
  fun p => match f (world p) with
           | (r, w') => (r, with_world w' p)
           end.

Definition log (line : string) : B unit := lift (console_log (Log line)).

(** [console.warn(line)]. *)
Definition warn (line : string) : B unit := lift (console_log (Warn line)).

(** [console.error(line, error)]. *)
Definition log_error (line : string) (error : Exception) : B unit :=
  match error with
  | Js e => lift (console_log (LogError line e))
  | Error m => lift (console_log (Log (line +:+ " Error: " +:+ m)))
  end.

Definition set_isBooted (b : bool) : B unit :=
  fun p => (Ok tt, mkProcess (isInitialized p) b (initializationStartTime p)
                             (intervals p) (world p)).

Definition set_isInitialized (b : bool) : B unit :=
  fun p => (Ok tt, mkProcess b (isBooted p) (initializationStartTime p)
                             (intervals p) (world p)).

Definition set_initializationStartTime (t : Z) : B unit :=
  fun p => (Ok tt, mkProcess (isInitialized p) (isBooted p) t (intervals p) (world p)).

(** [setInterval(job, period)]. *)
Definition setInterval (job : Job) (period : Z) : B unit :=
  fun p => (Ok tt, mkProcess (isInitialized p) (isBooted p) (initializationStartTime p)
                             (intervals p ++ [(job, period)])%list (world p)).

Section Boot.

(** [omegaOrchestrator.initialize()]: the orchestrator's boot of its six
    layers calls modules outside the snapshot; it is left open here. *)
Variable omegaOrchestrator_initialize : World -> result unit * World.

(** [recordBootExperience(bootTime)] and [recordBootErrorExperience(error)]
    (the second reads [initializationStartTime]): each is one call of
    [experienceDatabase.storeExperience], outside the snapshot, on a record
    literal; they are left open here. *)
Variable recordBootExperience : Z -> World -> result unit * World.
Variable recordBootErrorExperience : Exception -> Z -> World -> result unit * World.

(** [initializeOmegaSystem()]. *)
Definition initializeOmegaSystem : B unit :=
  log "SYSTEM: Initializing OMEGA System..." ;;>
  try_catchB
    ((* Initialize orchestrator (this boots all 6 layers) *)
     call omegaOrchestrator_initialize ;;>
     (* Update coordination status *)
     lift (updateCoordinationStatus sys_active) ;;>
     log "SYSTEM: OMEGA System initialized")
    (fun error =>
       log_error "SYSTEM: OMEGA System initialization failed:" error ;;>
       raise error).

(** [startHeartbeat()]. *)
Definition startHeartbeat : B unit :=
  setInterval heartbeat_job 60000 ;;>
  log "SYSTEM: Heartbeat started".

(** [startEnhancerMonitoring()]. *)
Definition startEnhancerMonitoring : B unit :=
  setInterval enhancer_monitoring_job 120000 ;;>
  log "SYSTEM: Enhancer monitoring started".

(** [handleBootError(error)]. *)
Definition handleBootError (error : Exception) : B unit :=
  log "SYSTEM: Handling boot error..." ;;>
  lift (coordination <- readCoordinationFile ;;
        let coordination := set_systemStatus sys_error coordination in
        now <- Date_now ;;
        let coordination := set_lastUpdate now coordination in
        coordinationData <- identifier [("coordination", coordination)] "coordinationData" ;;
        writeCoordinationFile coordinationData)%js ;;>
  (* Record error experience *)
  (fun p => call (recordBootErrorExperience error (initializationStartTime p)) p).

(** [boot()]. *)
Definition boot : B unit :=
  fun p =>
    if isBooted p then warn "SYSTEM: Already booted" p
    else
      (now <~ lift Date_now ;;
       set_initializationStartTime now ;;>
       log "SYSTEM: Booting OMEGA AI System..." ;;>
       log "SYSTEM: Dual-LLM Coordination Active" ;;>
       try_catchB
         ((* Phase 1: Initialize Coordination *)
          lift initializeCoordination ;;>
          (* Phase 2: Check for conflicts with other enhancer *)
          lift checkForConflicts ;;>
          (* Phase 3: Initialize OMEGA System *)
          initializeOmegaSystem ;;>
          (* Phase 4: Start Heartbeat *)
          startHeartbeat ;;>
          (* Phase 5: Monitor for other enhancer updates *)
          startEnhancerMonitoring ;;>
          (* Phase 6: Mark as booted *)
          set_isBooted true ;;>
          now' <~ lift Date_now ;;
          (fun p' =>
             let bootTime := now' - initializationStartTime p' in
             (log ("SYSTEM: OMEGA AI System booted in " +:+ pretty bootTime +:+ "ms") ;;>
              log "SYSTEM: SUPREME DOMINANCE ACHIEVED!" ;;>
              (* Record boot experience *)
              call (recordBootExperience bootTime)) p'))
         (fun error =>
            log_error "SYSTEM: Boot failed:" error ;;>
            handleBootError error ;;>
            raise (Error ("System boot failed: " +:+ message error)))) p.

(** [shutdown()]. *)
Definition shutdown : B unit :=
  log "SYSTEM: Shutting down OMEGA AI System..." ;;>
  set_isBooted false ;;>
  set_isInitialized false ;;>
  (* Update coordination status *)
  lift (updateCoordinationStatus sys_idle) ;;>
  log "SYSTEM: Shutdown complete".

(** [restart()]. *)
Definition restart : B unit :=
  log "SYSTEM: Restarting OMEGA AI System..." ;;>
  shutdown ;;>
  boot.

End Boot.

(** The object that [getSystemStatus()] returns. *)
Record SystemStatusReport := mkSystemStatusReport {
  rep_isInitialized : bool;
  rep_isBooted : bool;
  rep_bootTime : Z;
  rep_status : SystemStatus;
  rep_dualLLMMode : bool;
  rep_cycle : Z;
  rep_evolution_status : EvolutionStatus;
}.

(** [getSystemStatus()]. *)
Definition getSystemStatus : B SystemStatusReport :=
  coordination <~ lift readCoordinationFile ;;
  now <~ lift Date_now ;;
  (fun p =>
     (Ok (mkSystemStatusReport
            (isInitialized p) (isBooted p)
            (if isBooted p then now - initializationStartTime p else 0)
            (systemStatus coordination)
            (bool_decide (mode coordination = dual_llm))
            (cycle (evolution coordination))
            (evo_status (evolution coordination))),
      p)).

(** ** Auxiliary notions for the properties below *)

Definition raises_with {A} (e : Exception) (m : B A) : Prop :=
  forall p, (m p).1 = Raise e.

Definition always_raises {A} (m : B A) : Prop :=
  forall p, exists e, (m p).1 = Raise e.

Definition never_raises {A} (m : B A) : Prop :=
  forall p, exists a, (m p).1 = Ok a.

(** The flags and the registered intervals are those of [p]. *)
Definition untouched (p p' : Process) : Prop :=
  isInitialized p' = isInitialized p
  /\ isBooted p' = isBooted p
  /\ intervals p' = intervals p.

Definition preserves {A} (m : B A) : Prop :=
  forall p, untouched p (m p).2.

Definition unbound : Exception := Js (ReferenceError "coordinationData").

(** ** Scenarios for the properties below *)

Definition fresh_process (w : World) : Process := mkProcess false false 0 [] w.

Definition layers_come_up (w : World) : result unit * World := (Ok tt, w).

Definition experience_stored (bootTime : Z) (w : World) : result unit * World := (Ok tt, w).

Definition error_experience_stored (e : Exception) (start : Z) (w : World)
  : result unit * World := (Ok tt, w).

Definition rejected_world : World :=
  mkWorld 2000 (Some pipeline_record)
          {[ "src/a.ts" := "old"; "src/a.ts.enhancer.ts" := "const a = undefined;" ]}
          [] [].

Definition two_ready_record : CoordinationData :=
  mkCoordinationData "1.0" 1000 sys_active
    (mkEnhancer [] 1000 enh_active)
    (mkEnhancer ["src/a.ts.ready"; "src/b.ts.ready"] 1000 enh_active)
    dual_llm (mkEvolution 0 evo_idle None None).

Definition two_ready_world : World :=
  mkWorld 2000 (Some two_ready_record)
          {[ "src/a.ts" := "old"; "src/a.ts.enhancer.ts" := "export const a = 1;";
             "src/b.ts.enhancer.ts" := "export const b = 2;" ]}
          [] [].

Definition stale_record : CoordinationData :=
  mkCoordinationData "1.0" 1000 sys_active
    (mkEnhancer [] 1000 enh_active)
    (mkEnhancer ["src/a.ts.ready"] 1000 enh_active)
    dual_llm (mkEvolution 0 evo_idle None None).

Definition stale_world : World :=
  mkWorld 61000 (Some stale_record)
          {[ "src/a.ts" := "old"; "src/a.ts.enhancer.ts" := "export const a = 1;" ]}
          [] [].

End BootSequence.

(* ===================================================================== *)
(** * agentic-api.ts: agent queries, task status and queue status *)
(* ===================================================================== *)

Module AgenticQueries.
Import Agentic.

(** ['available' | 'busy' | 'offline']. *)
Inductive Availability := available | cap_busy | cap_offline.

#[global] Instance Availability_eq_dec : EqDecision Availability.
Proof. solve_decision. Defined.

Record AgentCapability := mkAgentCapability {
  cap_agentId : string;
  cap_name : string;
  cap_domain : string;
  cap_capabilities : list string;
  availability : Availability;
  cap_priority : Z;
}.

(** [getAvailableAgents()], over the registry's agents. *)
Definition getAvailableAgents (agents : list Agent) : list AgentCapability :=
  map (fun agent =>
         mkAgentCapability (id agent) (name agent) (domain agent) (capabilities agent)
                           (if bool_decide (status agent = idle) then available else cap_busy)
                           (priority agent))
      agents.

Section ByDomain.

(** [String.prototype.toLowerCase]. *)
Variable toLowerCase : string -> string.

(** [getAgentsByDomain(domain)]. *)
Definition getAgentsByDomain (agents : list Agent) (domain : string)
  : list AgentCapability :=
  List.filter (fun agent => String.eqb (toLowerCase (cap_domain agent)) (toLowerCase domain))
              (getAvailableAgents agents).

End ByDomain.

(** [getAgentCapabilities(agentId)]: [agent || null]. *)
Definition getAgentCapabilities (agents : list Agent) (agentId : string)
  : option AgentCapability :=
  List.find (fun a => String.eqb (cap_agentId a) agentId) (getAvailableAgents agents).

Section TaskStatus.

Context {Sched : Type}.

(** [orchestrator.getTaskResult(taskId)]. *)
Variable getTaskResult : string -> Sched -> TaskResult.

(** [getTaskStatus(taskId)]. *)
Definition getTaskStatus (taskId : string) (s : Sched) : TaskStatus :=
  let result := getTaskResult taskId s in
  mkTaskStatus taskId
               (if success result then completed else failed)
               (agentId result) (res_startTime result) (res_endTime result)
               (res_duration result)
               (if success result then 1%float else 0%float)
               (output result) (res_error result).

End TaskStatus.

(** The fields of an orchestrator result that [getTaskQueueStatus] reads;
    the three flags are read for their truthiness. *)
Record QueueResult := mkQueueResult {
  q_completed : bool;
  q_failed : bool;
  q_inProgress : bool;
  q_success : bool;
  q_startTime : option Z;
  q_submissionTime : option Z;
}.

(** Truthiness of an optional time stamp: [undefined] and [0] are falsy. *)
Definition truthy_time (t : option Z) : bool :=
  match t with
  | Some v => negb (v =? 0)
  | None => false
  end.

(** The [waitTimes] array of [getTaskQueueStatus]. *)
Definition waitTimes (taskResults : list QueueResult) : list Z :=
  map (fun result => default 0 (q_startTime result) - default 0 (q_submissionTime result))
      (List.filter (fun result => truthy_time (q_startTime result)
                                  && truthy_time (q_submissionTime result))
                   taskResults).

(** [Math.max(...xs)] on a non-empty array. *)
Definition Math_max (x : Z) (xs : list Z) : Z := fold_left Z.max xs x.

Record TaskQueueStatus := mkTaskQueueStatus {
  pendingTasks : Z;
  inProgressTasks : Z;
  completedTasks : Z;
  failedTasks : Z;
  averageQueueWaitTime : float;
  longestWaitTime : Z;
}.

(** [getTaskQueueStatus()], over the orchestrator's task results. *)
Definition getTaskQueueStatus (taskResults : list QueueResult) : TaskQueueStatus :=
  let pending_ := count (fun result => negb (q_completed result) && negb (q_failed result))
                        taskResults in
  let inProgress := count q_inProgress taskResults in
  let completed_ := count (fun result => q_completed result && q_success result)
                          taskResults in
  let failed_ := count (fun result => q_completed result && negb (q_success result))
                       taskResults in
  (* Calculate wait times *)
  let waits := waitTimes taskResults in
  let avgWait :=
    if 0 <? Z.of_nat (length waits)
    then PrimFloat.div (JS.float_of_Z (fold_left (fun sum wait => sum + wait) waits 0))
                       (JS.float_of_Z (Z.of_nat (length waits)))
    else 0%float in
  let longestWait :=
    match waits with
    | [] => 0
    | x :: xs => Math_max x xs
    end in
  mkTaskQueueStatus pending_ inProgress completed_ failed_ avgWait longestWait.

(** ** Scenarios for the properties below *)

Definition three_submissions : list TaskSubmission :=
  [ mkTaskSubmission "t1" "first" "query" "memory" 5 Undefined Undefined None None;
    mkTaskSubmission "t2" "second" "query" "memory" 5 Undefined Undefined None (Some 1);
    mkTaskSubmission "t3" "third" "plan" "reasoning" 1 Undefined Undefined (Some 10) None ].

Definition small_registry : list Agent :=
  [ mkAgent "a1" "archivist" "memory" ["recall"] idle 3;
    mkAgent "a2" "planner" "reasoning" ["plan"] busy 5;
    mkAgent "a3" "sentinel" "security" ["audit"] offline 1 ].

(** Two successful results, of 10 ms and 20 ms. *)
Definition all_successful : list TaskResult :=
  [ mkTaskResult true (Some "a1") (Some 0) (Some 10) (Some 10) Undefined None;
    mkTaskResult true (Some "a2") (Some 5) (Some 25) (Some 20) Undefined None ].

(** A registry in which two agents carry a domain that names a member of
    [Object.prototype], and one the domain [__proto__]. *)
Definition prototype_registry : list Agent :=
  [ mkAgent "a1" "archivist" "memory" ["recall"] idle 3;
    mkAgent "a2" "builder" "constructor" ["build"] idle 2;
    mkAgent "a3" "maker" "constructor" ["build"] busy 2;
    mkAgent "a4" "root" "__proto__" ["inherit"] idle 1 ].

Definition queue_sample : list QueueResult :=
  [ mkQueueResult true false false true (Some 150) (Some 100);
    mkQueueResult false false true false (Some 400) (Some 100);
    mkQueueResult false false false false None (Some 500) ].

End AgenticQueries.

(* ===================================================================== *)
(** * omega-orchestrator.ts: the phases of an evolution cycle *)
(* ===================================================================== *)

Module Evolution.
Import Omega.

(** ** [interface SystemPerformance] *)

Record Consciousness := mkConsciousness {
  cqm : float; emergence : bool; identity : float; intent : float;
  meaning : float; agency : float;
}.

Record Reasoning := mkReasoning {
  ethicalRisk : float; decisions : Z; confidence : float;
}.

Record Memory := mkMemory {
  totalExperiences : Z; successRate : float; quality : float; patternsDetected : Z;
}.

Record Security := mkSecurity {
  keys : Z; zkProofs : Z; rotationRate : float;
}.

Record Learning := mkLearning {
  cycles : Z; codeAnalysis : Z; improvements : Z; learning_evolutionRate : float;
}.

Record Agents := mkAgents {
  active : Z; tasksCompleted : Z; coordination : string;
}.

Record System := mkSystem {
  uptime : Z; system_status : string; system_lastUpdate : Z;
}.

Record SystemPerformance := mkSystemPerformance {
  consciousness : Consciousness;
  reasoning : Reasoning;
  memory : Memory;
  security : Security;
  learning : Learning;
  agents : Agents;
  system : System;
}.

(** What [analyzeSystemPerformance] reads from the consciousness layer:
    [internalStateTracker.getState()] (identity score, intent clarity,
    meaning depth, agency autonomy) and
    [emergenceDetector.isCurrentlyEmergent()]. Both modules are outside the
    snapshot. *)
Record Tracker := mkTracker {
  identity_score : float;
  intent_clarity : float;
  meaning_depth : float;
  agency_autonomy : float;
  currentlyEmergent : bool;
}.

(** [analyzeSystemPerformance()] at time [now]. *)
Definition analyzeSystemPerformance (o : Orchestrator) (t : Tracker) (now : Z)
  : SystemPerformance :=
  mkSystemPerformance
    (mkConsciousness (identity_score t) (currentlyEmergent t) (identity_score t)
                     (intent_clarity t) (meaning_depth t) (agency_autonomy t))
    (mkReasoning 0.5%float 100 0.88%float)
    (mkMemory 2847 0.843%float 0.81%float 12)
    (mkSecurity 10 25 0.95%float)
    (mkLearning (learningCycles o) 850 42 (evolutionRate o))
    (mkAgents 17 1243 "active")
    (mkSystem now "EVOLVING" now).

Inductive Priority := low | medium | high | critical.

Record OptimizationOpportunity := mkOpportunity {
  opp_layer : string;
  opp_type : string;
  opp_priority : Priority;
  opp_description : string;
  opp_expectedImprovement : float;
}.

Record EvolutionStrategy := mkStrategy {
  layer : string;
  type : string;
  description : string;
  strategy_confidence : float;
  expectedImprovement : float;
}.

(** [identifyOptimizationOpportunities(systemAnalysis)]; [rollbackPlan] is
    [null] throughout and left out. *)
Definition identifyOptimizationOpportunities (systemAnalysis : SystemPerformance)
  : list OptimizationOpportunity :=
  let opportunities : list OptimizationOpportunity := [] in
  (* Consciousness optimizations *)
  let opportunities :=
    if PrimFloat.ltb 0.8%float (cqm (consciousness systemAnalysis))
    then (opportunities ++
          [mkOpportunity "consciousness" "optimize_emergence_detection" high
             "Consciousness is stable - optimize emergence detection thresholds"
             0.1%float])%list
    else opportunities in
  (* Memory optimizations *)
  let opportunities :=
    if PrimFloat.ltb (successRate (memory systemAnalysis)) 0.85%float
    then (opportunities ++
          [mkOpportunity "memory" "improve_experience_quality" high
             "Success rate below 85% - improve experience quality metrics"
             0.08%float])%list
    else opportunities in
  (* Learning optimizations *)
  let opportunities :=
    if PrimFloat.ltb (learning_evolutionRate (learning systemAnalysis)) 0.15%float
    then (opportunities ++
          [mkOpportunity "learning" "accelerate_evolution" high
             "Evolution rate below 15% - accelerate evolution cycles"
             0.2%float])%list
    else opportunities in
  (* Security optimizations *)
  let keyStats := keys (security systemAnalysis) in
  let opportunities :=
    if 15 <? keyStats
    then (opportunities ++
          [mkOpportunity "security" "consolidate_keys" medium
             "Too many keys - consolidate key management"
             0.05%float])%list
    else opportunities in
  opportunities.

(** [generateEvolutionStrategies(opportunities)]. *)
Definition generateEvolutionStrategies (opportunities : list OptimizationOpportunity)
  : list EvolutionStrategy :=
  map (fun opp => mkStrategy (opp_layer opp) (opp_type opp) (opp_description opp)
                             0.9%float (opp_expectedImprovement opp))
      opportunities.

Record ApplyResults := mkApplyResults {
  apply_success : Z;
  apply_failed : Z;
  apply_improvements : list EvolutionStrategy;
}.

(** The [switch] of [applyEvolutionStrategies]: the handler of the
    strategy's layer, each of which logs one line; a layer without a case
    runs no handler. *)
Definition handler_log (strategy : EvolutionStrategy) : list string :=
  if String.eqb (layer strategy) "consciousness"
  then ["OMEGA: Applying consciousness strategy: " +:+ type strategy]
  else if String.eqb (layer strategy) "reasoning"
  then ["OMEGA: Applying reasoning strategy: " +:+ type strategy]
  else if String.eqb (layer strategy) "memory"
  then ["OMEGA: Applying memory strategy: " +:+ type strategy]
  else if String.eqb (layer strategy) "security"
  then ["OMEGA: Applying security strategy: " +:+ type strategy]
  else if String.eqb (layer strategy) "learning"
  then ["OMEGA: Applying learning strategy: " +:+ type strategy]
  else if String.eqb (layer strategy) "agents"
  then ["OMEGA: Applying agent strategy: " +:+ type strategy]
  else [].

(** [applyEvolutionStrategies(strategies)]: the results and the lines
    logged. No handler throws, so the [catch] branch, which would count a
    failure, is never entered. *)
Definition applyEvolutionStrategies (strategies : list EvolutionStrategy)
  : ApplyResults * list string :=
  fold_left
    (fun (acc : ApplyResults * list string) strategy =>
       let '(results, console) := acc in
       (mkApplyResults (apply_success results + 1) (apply_failed results)
                       (apply_improvements results ++ [strategy])%list,
        (console ++ handler_log strategy
           ++ ["OMEGA: Applied " +:+ layer strategy +:+ " strategy: " +:+ type strategy])%list))
    strategies
    (mkApplyResults 0 0 [], []).

Record Evaluation := mkEvaluation {
  eval_improvementPercentage : float;
  eval_confidence : float;
  successfulStrategies : Z;
  failedStrategies : Z;
}.

(** [evaluateEvolution(results)]; [recommendations] is the empty array. *)
Definition evaluateEvolution (results : ApplyResults) : Evaluation :=
  mkEvaluation improvementPercentage 0.85%float (apply_success results)
               (apply_failed results).

(** Phases 1 to 5 of [executeEvolutionCycle] in a row. *)
Definition evaluate_cycle (o : Orchestrator) (t : Tracker) (now : Z) : Evaluation :=
  let systemAnalysis := analyzeSystemPerformance o t now in
  let optimizationOpportunities := identifyOptimizationOpportunities systemAnalysis in
  let evolutionStrategies := generateEvolutionStrategies optimizationOpportunities in
  let evolutionResults := (applyEvolutionStrategies evolutionStrategies).1 in
  evaluateEvolution evolutionResults.

(** ** Scenarios for the properties below *)



End Evolution.

(* ===================================================================== *)
(** * Properties of the enhancement pipeline and the coordination store *)
(* ===================================================================== *)

Module BootstrapProofs.
Import Bootstrap.
Local Open Scope js_scope.

(** ** Validation *)

(** Validity is decided by the three checks, each adding one message. *)
Lemma validateEnhancements_valid (content : string) :
  valid (validateEnhancements content) =
    negb (negb (JS.includes content "export ") && negb (JS.includes content "import "))
    && negb (JS.includes content "  " && JS.includes content "export default")
    && negb (JS.includes content "undefined").
Proof.
  unfold validateEnhancements.
  destruct (JS.includes content "export "), (JS.includes content "import "),
    (JS.includes content "  "), (JS.includes content "export default"),
    (JS.includes content "undefined"); reflexivity.
Qed.

(** C1, as stated, fails: a module that has an import marker and no export
    marker passes validation. *)
Lemma validateEnhancements_accepts_import_only :
  let content := "import a from 'b';" in
  JS.includes content "import " = true
  /\ JS.includes content "export " = false
  /\ validateEnhancements content = mkValidation true [].
Proof. vm_compute. repeat split. Qed.

(** C1 (amended): validation rejects content exactly when it lacks both the
    import marker and the export marker, or holds a double space together
    with [export default], or holds [undefined]; content that lacks both
    markers carries the message [Invalid TypeScript code]; and content with
    an import marker and no export marker is accepted whenever the other two
    checks are passed. *)
Theorem validateEnhancements_rejects_iff (content : string) :
  (valid (validateEnhancements content) = false <->
     (JS.includes content "export " = false /\ JS.includes content "import " = false)
     \/ (JS.includes content "  " = true /\ JS.includes content "export default" = true)
     \/ JS.includes content "undefined" = true)
  /\ (JS.includes content "export " = false /\ JS.includes content "import " = false ->
      "Invalid TypeScript code" ∈ errors (validateEnhancements content))
  /\ (JS.includes content "import " = true ->
      JS.includes content "export default" = false ->
      JS.includes content "undefined" = false ->
      valid (validateEnhancements content) = true).
Proof.
  split; [|split].
  - rewrite validateEnhancements_valid.
    destruct (JS.includes content "export "), (JS.includes content "import "),
      (JS.includes content "  "), (JS.includes content "export default"),
      (JS.includes content "undefined"); simpl; intuition discriminate.
  - intros [He Hi]. unfold validateEnhancements. rewrite He, Hi. simpl.
    destruct (_ && _), (JS.includes content "undefined"); simpl;
      rewrite ?elem_of_cons; auto.
  - intros Hi Hd Hu. rewrite validateEnhancements_valid, Hi, Hd, Hu.
    destruct (JS.includes content "export "), (JS.includes content "  "); reflexivity.
Qed.

Lemma validateEnhancements_rejects_iff_witness :
  "Invalid TypeScript code" ∈ errors (validateEnhancements "const a = 1;")
  /\ valid (validateEnhancements "import a from 'b';") = true.
Proof.
  split.
  - apply (proj1 (proj2 (validateEnhancements_rejects_iff "const a = 1;"))).
    split; reflexivity.
  - apply (proj2 (proj2 (validateEnhancements_rejects_iff "import a from 'b';")));
      reflexivity.
Defined.

(** ** The apply step *)

Lemma length_append (s t : string) :
  String.length (s +:+ t) = (String.length s + String.length t)%nat.
Proof. induction s as [|c s IH]; simpl; [reflexivity | now rewrite IH]. Qed.

Lemma backup_path_fresh (path : string) : path ≠ path +:+ ".backup".
Proof.
  intros H. apply (f_equal String.length) in H.
  rewrite length_append in H. simpl in H. lia.
Qed.

(** What one call of [applyEnhancements] does to the world. *)
Lemma applyEnhancements_run (w : World) (path content : string) :
  let old := default "" (files w !! path) in
  applyEnhancements path content w =
    (Returned tt,
     mkWorld (clock w) (coordination_file w)
       (<[path +:+ ".backup" := old]> (<[path := content]> (files w)))
       (file_writes w ++ [(path, content); (path +:+ ".backup", old)])
       (console w ++ [Log ("SYSTEM: Applying enhancements to " +:+ path);
                      Log ("SYSTEM: Enhancements applied to " +:+ path
                           +:+ " (backup created)")])).
Proof.
  unfold applyEnhancements, bind, console_log, readFile, createPatch, writeFile,
    Date_now, ret; simpl.
  rewrite <- !app_assoc. reflexivity.
Qed.

(** C2, as stated, fails: the first write of the apply step overwrites the
    target, and in the file system that an observer sees after it the
    backup path does not exist yet. *)
Lemma applyEnhancements_overwrites_before_backup :
  let ws := writes_of (applyEnhancements "src/a.ts" "new") apply_world in
  ws = [("src/a.ts", "new"); ("src/a.ts.backup", "old")]
  /\ replay (files apply_world) (take 1 ws) !! "src/a.ts" = Some "new"
  /\ replay (files apply_world) (take 1 ws) !! "src/a.ts.backup" = None.
Proof. vm_compute. repeat split. Qed.

(** C2 (amended): the apply step reads the pre-patch target content, then
    writes the new content to the target path, and only then writes the
    pre-patch content to the backup path; between the two writes the target
    already holds the new content and the backup path is as it was; after
    both, the target holds the new content and the backup the pre-patch
    content. *)
Theorem applyEnhancements_target_then_backup (w : World) (path content : string) :
  let old := default "" (files w !! path) in
  let ws := writes_of (applyEnhancements path content) w in
  let w' := (applyEnhancements path content w).2 in
  ws = [(path, content); (path +:+ ".backup", old)]
  /\ replay (files w) (take 1 ws) !! path = Some content
  /\ replay (files w) (take 1 ws) !! (path +:+ ".backup") = files w !! (path +:+ ".backup")
  /\ files w' = replay (files w) ws
  /\ files w' !! path = Some content
  /\ files w' !! (path +:+ ".backup") = Some old.
Proof.
  intros old ws w'. subst ws w'. unfold writes_of.
  rewrite applyEnhancements_run. simpl. rewrite drop_app_length. simpl.
  pose proof (backup_path_fresh path) as Hne.
  repeat split.
  - apply lookup_insert_eq.
  - now apply lookup_insert_ne.
  - rewrite lookup_insert_ne by auto. apply lookup_insert_eq.
  - apply lookup_insert_eq.
Qed.

(** ** Heartbeat *)

(** The name that [updateHeartbeat] and [removeFileFromCoordination] hand to
    the write is bound nowhere in the module. *)
Lemma coordinationData_unbound : "coordinationData" ∉ module_scope.
Proof. unfold module_scope. rewrite !elem_of_cons, elem_of_nil. intuition discriminate. Qed.

(** [initializeCoordination], which declares the local it hands to the
    write, does reach the write: the fresh record is logged. *)
Lemma initializeCoordination_reaches_write (w : World) :
  (initializeCoordination w).1 = Returned tt
  /\ emitted initializeCoordination w
     = [Log "SYSTEM: Initializing coordination...";
        Log "SYSTEM: Writing coordination file...";
        LogRecord (default_coordination (clock w));
        Log "SYSTEM: Coordination initialized"].
Proof.
  split; [reflexivity|]. unfold emitted. cbn.
  rewrite <- !app_assoc. rewrite drop_app_length. reflexivity.
Qed.

(** C4 (defect): a heartbeat step never reaches the write. Evaluating the
    argument [coordinationData] throws a [ReferenceError], so in every world
    the persisted record after the step is the record before it, stale time
    stamps included; at time 120000, on a record last stamped at 60000, the
    persisted [lastHeartbeat] and [lastUpdate] are still 60000. *)
Theorem updateHeartbeat_persists_nothing :
  (forall w : World,
      (updateHeartbeat w).1 = Thrown (ReferenceError "coordinationData")
      /\ coordination_file (updateHeartbeat w).2 = coordination_file w)
  /\ (updateHeartbeat heartbeat_world).1 = Thrown (ReferenceError "coordinationData")
  /\ clock heartbeat_world = 120000
  /\ (lastHeartbeat ∘ omeaga_system <$> coordination_file (updateHeartbeat heartbeat_world).2)
     = Some 60000
  /\ (lastUpdate <$> coordination_file (updateHeartbeat heartbeat_world).2) = Some 60000.
Proof.
  split; [|repeat split].
  intros w. unfold updateHeartbeat, bind, readCoordinationFile.
  destruct (coordination_file w) eqn:E; simpl; rewrite ?E; split; reflexivity.
Qed.

(** ** Conflict check *)

Lemma for_of_log (f : string -> string) (xs : list string) (w : World) :
  for_of xs (fun x => console_log (Log (f x))) w =
    (Returned tt,
     mkWorld (clock w) (coordination_file w) (files w) (file_writes w)
             (console w ++ map (fun x => Log (f x)) xs)).
Proof.
  revert w. induction xs as [|x xs IH]; intros w; simpl.
  - rewrite app_nil_r. now destruct w.
  - unfold bind, console_log at 1. rewrite IH. simpl.
    rewrite <- app_assoc. reflexivity.
Qed.

(** The lines of one conflict check on a readable record. *)
Lemma checkForConflicts_emitted (w : World) (c : CoordinationData) :
  coordination_file w = Some c ->
  let peer := other_enhancer c in
  let age := clock w - lastHeartbeat peer in
  emitted checkForConflicts w =
    Log "SYSTEM: Checking for conflicts..." ::
    (if bool_decide (status peer = enh_active) && (age <? 300000) then
       Log ("SYSTEM: Other enhancer is active (heartbeat: "
            +:+ pretty (age / 1000) +:+ "s ago)") ::
       (if (0 <? Z.of_nat (length (activeFiles peer))) then
          Log ("SYSTEM: Other enhancer is working on "
               +:+ pretty (Z.of_nat (length (activeFiles peer))) +:+ " files:") ::
          map (fun file => Log ("  - " +:+ file)) (activeFiles peer)
          ++ [Log conflict_line]
        else [])
     else [Log "SYSTEM: No conflicts detected"]).
Proof.
  intros Hc peer age. subst peer age.
  unfold emitted, checkForConflicts, bind, readCoordinationFile, console_log at 1,
    Date_now. simpl. rewrite Hc. simpl.
  destruct (bool_decide _ && _); simpl.
  - destruct (0 <? _); simpl.
    + unfold bind, console_log at 1 2. simpl.
      rewrite (for_of_log (fun file => "  - " +:+ file)). simpl.
      rewrite <- !app_assoc. rewrite drop_app_length. reflexivity.
    + rewrite <- !app_assoc. rewrite drop_app_length. reflexivity.
  - rewrite <- !app_assoc. rewrite drop_app_length. reflexivity.
Qed.

Lemma conflict_line_not_bullet (xs : list string) :
  Log conflict_line ∉ map (fun file => Log ("  - " +:+ file)) xs.
Proof.
  induction xs as [|x xs IH]; simpl.
  - apply not_elem_of_nil.
  - rewrite elem_of_cons. intros [H|H]; [discriminate | auto].
Qed.

(** C8: with the peer active, its [activeFiles] non-empty and its last
    heartbeat at [T], the conflict check reports a conflict at
    [T + 250000] and none at [T + 301000]; at any time [t] it reports one
    exactly when [t - T < 300000]. *)
Theorem checkForConflicts_staleness (w : World) (c : CoordinationData) (T : Z) :
  coordination_file w = Some c ->
  lastHeartbeat (other_enhancer c) = T ->
  status (other_enhancer c) = enh_active ->
  activeFiles (other_enhancer c) <> [] ->
  Log conflict_line ∈ emitted checkForConflicts (at_time (T + 250000) w)
  /\ (Log conflict_line ∉ emitted checkForConflicts (at_time (T + 301000) w))
  /\ (forall t : Z,
        Log conflict_line ∈ emitted checkForConflicts (at_time t w) <-> t - T < 300000).
Proof.
  intros Hc HT Hs Hf.
  assert (Hiff : forall t : Z,
             Log conflict_line ∈ emitted checkForConflicts (at_time t w)
             <-> t - T < 300000).
  { intros t.
    rewrite (checkForConflicts_emitted (at_time t w) c) by exact Hc.
    simpl. rewrite HT, Hs. rewrite bool_decide_eq_true_2 by reflexivity. simpl.
    destruct (Z.ltb_spec (t - T) 300000) as [Hlt|Hge].
    - destruct (activeFiles (other_enhancer c)) as [|f fs] eqn:Ef; [congruence|].
      replace (0 <? Z.of_nat (length (f :: fs))) with true
        by (symmetry; apply Z.ltb_lt; simpl; lia).
      split; [auto|]. intros _.
      rewrite !elem_of_cons, elem_of_app, list_elem_of_singleton. auto.
    - split; [|lia]. rewrite !elem_of_cons, elem_of_nil.
      intros [H|[H|[]]]; discriminate. }
  split; [|split].
  - apply Hiff. lia.
  - rewrite Hiff. lia.
  - exact Hiff.
Qed.

Lemma checkForConflicts_staleness_witness :
  Log conflict_line ∈ emitted checkForConflicts (at_time (1000000 + 250000) conflict_world)
  /\ (Log conflict_line ∉ emitted checkForConflicts (at_time (1000000 + 301000) conflict_world))
  /\ (forall t : Z,
        Log conflict_line ∈ emitted checkForConflicts (at_time t conflict_world)
        <-> t - 1000000 < 300000).
Proof.
  apply (checkForConflicts_staleness conflict_world conflict_record 1000000);
    [reflexivity | reflexivity | reflexivity | discriminate].
Defined.

(** ** Processing a ready file *)

(** Removing a file from the coordination record never changes the
    persisted record: either the path is not listed and nothing is written,
    or the argument of the write throws. *)
Lemma removeFileFromCoordination_store (w : World) (filePath : string) :
  coordination_file (removeFileFromCoordination filePath w).2 = coordination_file w
  /\ files (removeFileFromCoordination filePath w).2 = files w.
Proof.
  unfold removeFileFromCoordination, bind, readCoordinationFile.
  destruct (coordination_file w) eqn:E; simpl.
  - destruct (negb _); simpl; rewrite ?E; split; reflexivity.
  - rewrite ?E. split; reflexivity.
Qed.

Lemma removeFileFromCoordination_listed (w : World) (c : CoordinationData)
      (filePath : string) :
  coordination_file w = Some c ->
  JS.indexOf (activeFiles (other_enhancer c)) filePath <> -1 ->
  (removeFileFromCoordination filePath w).1 = Thrown (ReferenceError "coordinationData").
Proof.
  intros Hc Hi. unfold removeFileFromCoordination, bind, readCoordinationFile.
  rewrite Hc. simpl.
  destruct (Z.eqb_spec (JS.indexOf (activeFiles (other_enhancer c)) filePath) (-1));
    [contradiction | reflexivity].
Qed.

Lemma keeps_console_log (e : LogEntry) : keeps_storage (console_log e).
Proof. intros w. split; reflexivity. Qed.

Lemma keeps_bind {A B} (m : M A) (k : A -> M B) :
  keeps_storage m -> (forall a, keeps_storage (k a)) -> keeps_storage (bind m k).
Proof.
  intros Hm Hk w. unfold bind. specialize (Hm w).
  destruct (m w) as [[a|e] w1]; simpl in *.
  - destruct (Hk a w1) as [H1 H2]. rewrite H1, H2. exact Hm.
  - exact Hm.
Qed.

Lemma keeps_try_catch {A} (m : M A) (h : JsError -> M A) :
  keeps_storage m -> (forall e, keeps_storage (h e)) -> keeps_storage (try_catch m h).
Proof.
  intros Hm Hh w. unfold try_catch. specialize (Hm w).
  destruct (m w) as [[a|e] w1]; simpl in *.
  - exact Hm.
  - destruct (Hh e w1) as [H1 H2]. rewrite H1, H2. exact Hm.
Qed.

Lemma keeps_removeFileFromCoordination (filePath : string) :
  keeps_storage (removeFileFromCoordination filePath).
Proof.
  intros w. destruct (removeFileFromCoordination_store w filePath). split; assumption.
Qed.

Lemma keeps_after_apply (filePath : string) : keeps_storage (after_apply filePath).
Proof.
  apply keeps_try_catch.
  - apply keeps_bind; [apply keeps_removeFileFromCoordination|].
    intros _. apply keeps_console_log.
  - intros e. apply keeps_console_log.
Qed.

Lemma processReadyFile_accepted (w : World) (filePath : string) :
  let enhancedContent :=
    default "" (files w !! JS.replace filePath ".ready" ".enhancer.ts") in
  let originalPath := JS.replace filePath ".ready" "" in
  valid (validateEnhancements enhancedContent) = true ->
  exists w1 : World,
    processReadyFile filePath w = after_apply filePath w1
    /\ coordination_file w1 = coordination_file w
    /\ files w1 = <[originalPath +:+ ".backup" := default "" (files w !! originalPath)]>
                     (<[originalPath := enhancedContent]> (files w)).
Proof.
  intros enhancedContent originalPath Hv.
  subst enhancedContent originalPath.
  unfold processReadyFile, after_apply, try_catch.
  unfold bind at 1, console_log at 1.
  unfold bind at 1, readFile at 1. cbn [fst snd files].
  rewrite Hv.
  unfold bind at 1, console_log at 1.
  unfold bind at 1. rewrite applyEnhancements_run.
  eexists. split; [reflexivity|]. split; reflexivity.
Qed.

(** For accepted content the files end as C9 says: the backup holds the
    pre-patch target, the target the new content. *)
Lemma processReadyFile_files (w : World) (filePath : string) :
  let enhancedContent :=
    default "" (files w !! JS.replace filePath ".ready" ".enhancer.ts") in
  let originalPath := JS.replace filePath ".ready" "" in
  let old := default "" (files w !! originalPath) in
  let w' := (processReadyFile filePath w).2 in
  valid (validateEnhancements enhancedContent) = true ->
  files w' !! (originalPath +:+ ".backup") = Some old
  /\ files w' !! originalPath = Some enhancedContent.
Proof.
  intros enhancedContent originalPath old w' Hv. subst w'.
  destruct (processReadyFile_accepted w filePath Hv) as (w1 & Hrun & _ & Hfiles).
  rewrite Hrun. destruct (keeps_after_apply filePath w1) as [Hk _].
  rewrite Hk, Hfiles. split.
  - apply lookup_insert_eq.
  - rewrite lookup_insert_ne by (symmetry; apply backup_path_fresh).
    apply lookup_insert_eq.
Qed.

(** Whatever the artifact, processing it leaves the persisted record as it
    was. *)
Lemma processReadyFile_store (w : World) (filePath : string) :
  coordination_file (processReadyFile filePath w).2 = coordination_file w.
Proof.
  destruct (valid (validateEnhancements
              (default "" (files w !! JS.replace filePath ".ready" ".enhancer.ts"))))
    eqn:Hv.
  - destruct (processReadyFile_accepted w filePath Hv) as (w1 & Hrun & Hstore & _).
    rewrite Hrun. destruct (keeps_after_apply filePath w1) as [_ Hk].
    now rewrite Hk.
  - unfold processReadyFile, try_catch.
    unfold bind at 1, console_log at 1.
    unfold bind at 1, readFile at 1. cbn [fst snd files].
    rewrite Hv. reflexivity.
Qed.

(** The run of the pipeline on the scenario: both files written, then the
    [ReferenceError] caught and logged, the record untouched. *)
Lemma processReadyFile_pipeline_run :
  let w' := (processReadyFile "src/a.ts.ready" pipeline_world).2 in
  file_writes w' = [("src/a.ts", "export const a = 1;"); ("src/a.ts.backup", "old")]
  /\ coordination_file w' = Some pipeline_record
  /\ last (console w')
     = Some (LogError "SYSTEM: Failed to process ready file src/a.ts.ready:"
                      (ReferenceError "coordinationData")).
Proof. vm_compute. repeat split. Qed.

(** C9 (defect): for an accepted artifact listed in the peer's
    [activeFiles], processing leaves the backup holding the pre-patch target
    and the target holding the new content, as claimed, but does not persist
    the removal: the argument of the record's write throws a
    [ReferenceError], which [processReadyFile] catches and logs, so the
    persisted record is the one from before and still lists the artifact's
    path. *)
Theorem processReadyFile_keeps_activeFiles_entry
        (w : World) (c : CoordinationData) (filePath : string) :
  let enhancedContent :=
    default "" (files w !! JS.replace filePath ".ready" ".enhancer.ts") in
  let originalPath := JS.replace filePath ".ready" "" in
  let old := default "" (files w !! originalPath) in
  let w' := (processReadyFile filePath w).2 in
  coordination_file w = Some c ->
  filePath ∈ activeFiles (other_enhancer c) ->
  valid (validateEnhancements enhancedContent) = true ->
  files w' !! (originalPath +:+ ".backup") = Some old
  /\ files w' !! originalPath = Some enhancedContent
  /\ coordination_file w' = Some c
  /\ (exists c', coordination_file w' = Some c'
                 /\ filePath ∈ activeFiles (other_enhancer c')).
Proof.
  intros enhancedContent originalPath old w' Hc Hin Hv.
  destruct (processReadyFile_files w filePath Hv) as [Hb Ht].
  pose proof (processReadyFile_store w filePath) as Hs.
  subst w'. rewrite Hs, Hc. repeat split; [exact Hb | exact Ht |].
  exists c. split; [reflexivity | exact Hin].
Qed.

Lemma processReadyFile_keeps_activeFiles_entry_witness :
  let w' := (processReadyFile "src/a.ts.ready" pipeline_world).2 in
  files w' !! "src/a.ts.backup" = Some "old"
  /\ files w' !! "src/a.ts" = Some "export const a = 1;"
  /\ coordination_file w' = Some pipeline_record
  /\ (exists c', coordination_file w' = Some c'
                 /\ "src/a.ts.ready" ∈ activeFiles (other_enhancer c')).
Proof.
  apply (processReadyFile_keeps_activeFiles_entry
           pipeline_world pipeline_record "src/a.ts.ready");
    [reflexivity | constructor | reflexivity].
Defined.

End BootstrapProofs.

(* ===================================================================== *)
(** * Properties of the agentic facade *)
(* ===================================================================== *)

Module AgenticProofs.
Import Agentic.

(** ** Submission *)

Lemma submitTask_call {Sched : Type}
      (executeTask : Task -> ExecuteOptions -> Sched -> TaskResult * Sched)
      (submission : TaskSubmission) (s : Sched) :
  submitTask executeTask submission s =
    (status_of submission (executeTask (task_of submission) (options_of submission) s).1,
     (executeTask (task_of submission) (options_of submission) s).2).
Proof. unfold submitTask. now destruct (executeTask _ _ s). Qed.

(** C10: whatever the scheduler behind the facade, a submission with
    [maxRetries = 0] (or none) reaches it with [maxRetries = 3], and a
    submission with a positive [maxRetries] reaches it with that budget. *)
Theorem submitTask_maxRetries {Sched : Type}
        (executeTask : Task -> ExecuteOptions -> Sched -> TaskResult * Sched)
        (submission : TaskSubmission) (s : Sched) :
  let call budget :=
    executeTask (task_of submission) (mkExecuteOptions (timeoutMs submission) budget) s in
  (maxRetries submission = Some 0 \/ maxRetries submission = None ->
   submitTask executeTask submission s = (status_of submission (call 3).1, (call 3).2))
  /\ (forall n : Z, 0 < n -> maxRetries submission = Some n ->
      submitTask executeTask submission s = (status_of submission (call n).1, (call n).2)).
Proof.
  intros call. subst call. rewrite submitTask_call. unfold options_of. split.
  - intros [H|H]; rewrite H; reflexivity.
  - intros n Hn H. rewrite H. simpl.
    destruct (Z.eqb_spec n 0); [lia | reflexivity].
Qed.

Lemma submitTask_maxRetries_witness :
  (submitTask recording zero_retries []).2
    = [(task_of zero_retries, mkExecuteOptions (Some 2000) 3)]
  /\ (submitTask recording two_retries []).2
    = [(task_of two_retries, mkExecuteOptions (Some 2000) 2)].
Proof.
  split.
  - rewrite (proj1 (submitTask_maxRetries recording zero_retries []) (or_introl eq_refl)).
    reflexivity.
  - rewrite (proj2 (submitTask_maxRetries recording two_retries []) 2 eq_refl eq_refl).
    reflexivity.
Defined.

(** ** Swarm health *)

Lemma count_bounds {A} (p : A -> bool) (l : list A) :
  0 <= count p l <= Z.of_nat (length l).
Proof.
  unfold count. induction l as [|x l IH]; simpl; [lia|].
  destruct (p x); simpl; lia.
Qed.

Lemma count_mono {A} (p q : A -> bool) (l : list A) :
  (forall x, p x = true -> q x = true) -> count p l <= count q l.
Proof.
  intros Hpq. unfold count. induction l as [|x l IH]; simpl; [lia|].
  destruct (p x) eqn:Hp.
  - rewrite (Hpq x Hp). simpl. lia.
  - destruct (q x); simpl; lia.
Qed.

(** C6, as stated, fails: with nine of ten agents busy the load is 90, which
    is not above 90, and the near-capacity advisory is not among the
    recommended actions. *)
Lemma getSwarmHealth_no_advisory_at_90 :
  totalCapacity (getSwarmHealth nine_of_ten) = 10
  /\ currentLoad (getSwarmHealth nine_of_ten) = 9
  /\ loadPercentage (getSwarmHealth nine_of_ten) = 90%float
  /\ near_capacity_advisory ∉ recommendedActions (getSwarmHealth nine_of_ten).
Proof.
  assert (Hrec : recommendedActions (getSwarmHealth nine_of_ten) = [unhealthy_advisory])
    by reflexivity.
  repeat split; try reflexivity.
  rewrite Hrec, list_elem_of_singleton. discriminate.
Qed.

(** C6 (amended): for a registry of ten agents of which nine are busy,
    [getSwarmHealth] returns [loadPercentage = 90] and [healthy = false], and
    its recommended actions are the unhealthy advisory alone, without the
    near-capacity advisory; in general the near-capacity advisory is emitted
    exactly when the load percentage, as computed before rounding, is
    above 90. *)
Theorem getSwarmHealth_near_capacity :
  (forall agents : list Agent,
      length agents = 10%nat ->
      count (has_status busy) agents = 9 ->
      loadPercentage (getSwarmHealth agents) = 90%float
      /\ healthy (getSwarmHealth agents) = false
      /\ recommendedActions (getSwarmHealth agents) = [unhealthy_advisory]
      /\ near_capacity_advisory ∉ recommendedActions (getSwarmHealth agents))
  /\ (forall agents : list Agent,
        near_capacity_advisory ∈ recommendedActions (getSwarmHealth agents)
        <-> PrimFloat.ltb 90%float (raw_loadPercentage agents) = true).
Proof.
  split.
  - intros agents Hlen Hbusy.
    assert (Hraw : raw_loadPercentage agents = 90%float).
    { unfold raw_loadPercentage. rewrite Hlen, Hbusy. reflexivity. }
    pose proof (count_bounds (fun agent => has_status idle agent || has_status busy agent)
                             agents) as Hb.
    pose proof (count_mono (has_status busy)
                  (fun agent => has_status idle agent || has_status busy agent) agents) as Hm.
    specialize (Hm ltac:(intros x Hx; cbv beta; rewrite Hx; apply orb_true_r)).
    rewrite Hlen in Hb. rewrite Hbusy in Hm.
    assert (Hact : count (fun agent => has_status idle agent || has_status busy agent) agents = 9
                   \/ count (fun agent => has_status idle agent || has_status busy agent) agents = 10)
      by lia.
    assert (Hrec : recommendedActions (getSwarmHealth agents) = [unhealthy_advisory]).
    { unfold getSwarmHealth. rewrite Hraw, Hlen. cbn [recommendedActions].
      destruct Hact as [-> | ->]; reflexivity. }
    rewrite Hrec. unfold getSwarmHealth. rewrite Hraw. cbn [loadPercentage healthy].
    repeat split; try reflexivity.
    rewrite list_elem_of_singleton. discriminate.
  - intros agents. unfold getSwarmHealth. cbn [recommendedActions].
    destruct (PrimFloat.ltb 90 (raw_loadPercentage agents));
      destruct (PrimFloat.ltb (JS.float_of_Z _) _);
      destruct (negb _); cbn [app];
      rewrite ?elem_of_cons, ?elem_of_nil; unfold near_capacity_advisory,
        low_utilization_advisory, unhealthy_advisory;
      intuition discriminate.
Qed.

Lemma getSwarmHealth_near_capacity_witness :
  loadPercentage (getSwarmHealth nine_of_ten) = 90%float
  /\ healthy (getSwarmHealth nine_of_ten) = false
  /\ recommendedActions (getSwarmHealth nine_of_ten) = [unhealthy_advisory]
  /\ near_capacity_advisory ∉ recommendedActions (getSwarmHealth nine_of_ten).
Proof.
  apply (proj1 getSwarmHealth_near_capacity nine_of_ten); reflexivity.
Defined.

(** ** Statistics *)

Lemma averageTaskDuration_unfold (agents : list Agent) (taskResults : list TaskResult) :
  averageTaskDuration (getAgentStatistics agents taskResults) =
    if 0 <? count success taskResults
    then PrimFloat.div (total_duration taskResults)
                       (JS.float_of_Z (count success taskResults))
    else 0%float.
Proof. reflexivity. Qed.

(** With no successful record the average is 0, as C7 says. *)
Lemma averageTaskDuration_none_successful (agents : list Agent)
      (taskResults : list TaskResult) :
  count success taskResults = 0 ->
  averageTaskDuration (getAgentStatistics agents taskResults) = 0%float.
Proof. intros H. rewrite averageTaskDuration_unfold, H. reflexivity. Qed.

(** When every record is successful the code computes the mean of C7. *)
Lemma averageTaskDuration_all_successful (agents : list Agent)
      (taskResults : list TaskResult) :
  forallb success taskResults = true ->
  averageTaskDuration (getAgentStatistics agents taskResults)
  = mean_successful_duration taskResults.
Proof.
  intros Hall.
  assert (Hf : List.filter success taskResults = taskResults).
  { induction taskResults as [|r l IH]; simpl in *; [reflexivity|].
    apply andb_true_iff in Hall as [Hr Hl]. rewrite Hr, (IH Hl). reflexivity. }
  rewrite averageTaskDuration_unfold. unfold mean_successful_duration, count.
  rewrite Hf. reflexivity.
Qed.

(** C7 (defect): the numerator sums the durations of all records, failed
    ones included, while the denominator counts the successful ones. With
    one success of 10 ms and one failure of 20 ms the reported average is
    30 ms; the mean over the successful records is 10 ms. *)
Theorem averageTaskDuration_counts_failed_durations :
  tasksCompleted (getAgentStatistics [] mixed_results) = 1
  /\ averageTaskDuration (getAgentStatistics [] mixed_results) = 30%float
  /\ mean_successful_duration mixed_results = 10%float.
Proof. repeat split; reflexivity. Qed.

End AgenticProofs.

(* ===================================================================== *)
(** * Properties of the scheduler seen through the facade *)
(* ===================================================================== *)

Module SchedulerProofs.
Import Agentic Scheduler.

Lemma candidates_none (task : Task) (s : State) :
  (forall a, a ∈ agents s -> domain a = task_domain task -> status a <> idle) ->
  candidates task s = [].
Proof.
  unfold candidates. induction (agents s) as [|a l IH]; intros H; simpl; [reflexivity|].
  destruct (String.eqb_spec (domain a) (task_domain task)) as [Hd|Hd]; simpl.
  - unfold has_status. rewrite bool_decide_eq_false_2.
    + apply IH. intros b Hb. apply H. now right.
    + apply H; [now left | exact Hd].
  - apply IH. intros b Hb. apply H. now right.
Qed.

Lemma execute_no_candidate (executor : Agent -> Task -> nat -> Execution)
      (retries attempt : nat) (task : Task) (timeoutMs : option Z) (s : State) :
  candidates task s = [] ->
  execute executor retries attempt task timeoutMs s =
    (mkTaskResult false None None None None Undefined (Some NoAgentAvailable),
     mkState (agents s) (completedBy s)
             (records s ++ [mkTaskRecord task rs_failed None None (Some (now s))
                                         Undefined (Some NoAgentAvailable)])
             (now s)).
Proof.
  intros Hc. destruct retries; simpl; unfold select; rewrite Hc; reflexivity.
Qed.

(** C5: when no agent of the submission's domain is idle, [submitTask]
    returns at once, whatever the executor and the retry budget: the status
    is [failed], the error is (and so contains) [NoAgentAvailable], no agent
    is assigned, the registry and the clock are as before, and the only
    record added is the failed one; nothing is left pending or in
    progress. *)
Theorem submitTask_no_idle_agent (executor : Agent -> Task -> nat -> Execution)
        (submission : TaskSubmission) (s : State) :
  (forall a, a ∈ agents s -> domain a = sub_domain submission -> status a <> idle) ->
  let st := (submitTask (executeTask executor) submission s).1 in
  let s' := (submitTask (executeTask executor) submission s).2 in
  ts_status st = failed
  /\ ts_error st = Some NoAgentAvailable
  /\ (exists e, ts_error st = Some e /\ JS.includes e "NoAgentAvailable" = true)
  /\ assignedAgent st = None
  /\ agents s' = agents s
  /\ now s' = now s
  /\ records s' = (records s ++ [mkTaskRecord (task_of submission) rs_failed None None
                                              (Some (now s)) Undefined
                                              (Some NoAgentAvailable)])%list.
Proof.
  intros Hidle st s'. subst st s'.
  unfold submitTask, executeTask.
  rewrite execute_no_candidate by (apply candidates_none; exact Hidle).
  simpl. repeat split. exists NoAgentAvailable. split; reflexivity.
Qed.

Lemma submitTask_no_idle_agent_witness :
  let st := (submitTask (executeTask always_succeeds) t1 no_memory_agents).1 in
  ts_status st = failed
  /\ ts_error st = Some NoAgentAvailable.
Proof.
  pose proof (submitTask_no_idle_agent always_succeeds t1 no_memory_agents) as H.
  simpl. split; apply H; intros a Ha Hd;
    (apply elem_of_cons in Ha as [->|Ha];
     [discriminate | apply list_elem_of_singleton in Ha as ->; discriminate]).
Defined.

End SchedulerProofs.

(* ===================================================================== *)
(** * Further properties of the pipeline and the coordination store *)
(* ===================================================================== *)

Module PipelineProofs.
Import Bootstrap BootSequence BootstrapProofs.
Local Open Scope js_scope.

(** ** String replacement *)

Lemma startsWith_skip_length (p s : string) :
  JS.startsWith p s = true ->
  (String.length (JS.skip (String.length p) s) + String.length p = String.length s)%nat.
Proof.
  revert s. induction p as [|a p IH]; intros s H; simpl in *; [lia|].
  destruct s as [|b s]; [discriminate|].
  destruct (Ascii.eqb a b); [|discriminate].
  simpl. specialize (IH s H). lia.
Qed.

Lemma replace_length (s pat rep : string) :
  JS.includes s pat = true ->
  (String.length (JS.replace s pat rep) + String.length pat
   = String.length s + String.length rep)%nat.
Proof.
  induction s as [|c s IH]; intros H.
  - simpl in *. rewrite orb_false_r in H. rewrite H.
    rewrite length_append. pose proof (startsWith_skip_length pat "" H). simpl in *. lia.
  - cbn [JS.includes JS.replace] in *.
    destruct (JS.startsWith pat (String c s)) eqn:Hs.
    + rewrite length_append. pose proof (startsWith_skip_length pat _ Hs). lia.
    + simpl in H. specialize (IH H). simpl. lia.
Qed.

Lemma replace_absent (s pat rep : string) :
  JS.includes s pat = false -> JS.replace s pat rep = s.
Proof.
  induction s as [|c s IH]; intros H; cbn [JS.includes JS.replace] in *.
  - apply orb_false_iff in H as [-> _]. reflexivity.
  - apply orb_false_iff in H as [-> H]. now rewrite IH.
Qed.

(** For a path that carries the ready marker, the companion, the target
    and the backup are three different paths. *)
Lemma ready_paths_distinct (filePath : string) :
  JS.includes filePath ".ready" = true ->
  let companion := JS.replace filePath ".ready" ".enhancer.ts" in
  let target := JS.replace filePath ".ready" "" in
  companion <> target /\ companion <> target +:+ ".backup".
Proof.
  intros H companion target. subst companion target.
  pose proof (replace_length filePath ".ready" ".enhancer.ts" H) as H1.
  pose proof (replace_length filePath ".ready" "" H) as H2.
  split; intros E; apply (f_equal String.length) in E;
    rewrite ?length_append in E; simpl in *; lia.
Qed.

(** ** Exceptions stay inside the pipeline *)

Lemma for_of_returns {A} (xs : list A) (body : A -> M unit) :
  (forall x w, (body x w).1 = Returned tt) ->
  forall w, (for_of xs body w).1 = Returned tt.
Proof.
  intros Hb. induction xs as [|x xs IH]; intros w; simpl; [reflexivity|].
  unfold bind. specialize (Hb x w).
  destruct (body x w) as [[[]|e] w1]; simpl in *; [apply IH | discriminate].
Qed.

Lemma processReadyFile_returns (w : World) (filePath : string) :
  (processReadyFile filePath w).1 = Returned tt.
Proof.
  unfold processReadyFile, bind at 1, console_log at 1, try_catch.
  match goal with |- context [let (_, _) := ?body ?w0 in _] =>
    destruct (body w0) as [[[]|e] w1] end; reflexivity.
Qed.

(** ** What a computation adds to the console *)

Lemma grows_ret {A} (a : A) : grows (ret a).
Proof. intros w. exists []. simpl. now rewrite app_nil_r. Qed.

Lemma grows_console_log (e : LogEntry) : grows (console_log e).
Proof. intros w. now exists [e]. Qed.

Lemma grows_bind {A B} (m : M A) (k : A -> M B) :
  grows m -> (forall a, grows (k a)) -> grows (bind m k).
Proof.
  intros Hm Hk w. unfold bind. destruct (Hm w) as [l Hl].
  destruct (m w) as [[a|e] w1]; simpl in *.
  - destruct (Hk a w1) as [l' Hl']. exists (l ++ l')%list.
    now rewrite Hl', Hl, app_assoc.
  - now exists l.
Qed.

Lemma grows_try_catch {A} (m : M A) (h : JsError -> M A) :
  grows m -> (forall e, grows (h e)) -> grows (try_catch m h).
Proof.
  intros Hm Hh w. unfold try_catch. destruct (Hm w) as [l Hl].
  destruct (m w) as [[a|e] w1]; simpl in *.
  - now exists l.
  - destruct (Hh e w1) as [l' Hl']. exists (l ++ l')%list.
    now rewrite Hl', Hl, app_assoc.
Qed.

Lemma grows_silent {A} (m : M A) :
  (forall w, console (m w).2 = console w) -> grows m.
Proof. intros H w. exists []. now rewrite H, app_nil_r. Qed.

Lemma grows_readCoordinationFile : grows readCoordinationFile.
Proof.
  intros w. unfold readCoordinationFile.
  destruct (coordination_file w).
  - exists []. simpl. now rewrite app_nil_r.
  - now exists [Log "Failed to read coordination file:"].
Qed.

Lemma grows_identifier (locals : list (string * CoordinationData)) (x : string) :
  grows (identifier locals x).
Proof.
  apply grows_silent. intros w. unfold identifier.
  destruct (List.find _ locals); reflexivity.
Qed.

Lemma grows_writeCoordinationFile (data : CoordinationData) :
  grows (writeCoordinationFile data).
Proof. apply grows_bind; [|intros _]; apply grows_console_log. Qed.

Lemma grows_applyEnhancements (originalPath enhancedContent : string) :
  grows (applyEnhancements originalPath enhancedContent).
Proof.
  unfold applyEnhancements.
  apply grows_bind; [apply grows_console_log|]. intros ?.
  apply grows_bind; [now apply grows_silent|]. intros currentContent.
  apply grows_bind; [now apply grows_silent|]. intros ?.
  apply grows_bind; [now apply grows_silent|]. intros ?.
  apply grows_bind; [now apply grows_silent|]. intros ?.
  apply grows_console_log.
Qed.

Lemma grows_removeFileFromCoordination (filePath : string) :
  grows (removeFileFromCoordination filePath).
Proof.
  unfold removeFileFromCoordination.
  apply grows_bind; [apply grows_readCoordinationFile|]. intros c.
  destruct (negb _); [|apply grows_ret].
  apply grows_bind; [now apply grows_silent|]. intros ?.
  apply grows_bind; [apply grows_identifier|]. intros d.
  apply grows_writeCoordinationFile.
Qed.

Lemma grows_processReadyFile (filePath : string) : grows (processReadyFile filePath).
Proof.
  unfold processReadyFile.
  apply grows_bind; [apply grows_console_log|]. intros ?.
  apply grows_try_catch; [|intros e; apply grows_console_log].
  apply grows_bind; [now apply grows_silent|]. intros enhancedContent.
  destruct (valid _); [|apply grows_console_log].
  apply grows_bind; [apply grows_console_log|]. intros ?.
  apply grows_bind; [apply grows_applyEnhancements|]. intros ?.
  apply grows_bind; [apply grows_removeFileFromCoordination|]. intros ?.
  apply grows_console_log.
Qed.

Lemma grows_for_of {A} (xs : list A) (body : A -> M unit) :
  (forall x, grows (body x)) -> grows (for_of xs body).
Proof.
  intros Hb. induction xs as [|x xs IH]; simpl; [apply grows_ret|].
  apply grows_bind; [apply Hb | intros _; exact IH].
Qed.

Lemma logs_console_log (e : LogEntry) : logs e (console_log e).
Proof. intros w. now exists [], []. Qed.

Lemma logs_bind_l {A B} (e : LogEntry) (m : M A) (k : A -> M B) :
  logs e m -> (forall a, grows (k a)) -> logs e (bind m k).
Proof.
  intros Hm Hk w. unfold bind. destruct (Hm w) as (l1 & l2 & Hl).
  destruct (m w) as [[a|e'] w1]; simpl in *.
  - destruct (Hk a w1) as [l' Hl']. exists l1, (l2 ++ l')%list.
    rewrite Hl', Hl. now rewrite <- !app_assoc.
  - now exists l1, l2.
Qed.

Lemma logs_bind_r {A B} (e : LogEntry) (m : M A) (k : A -> M B) :
  grows m -> returns m -> (forall a, logs e (k a)) -> logs e (bind m k).
Proof.
  intros Hg Hr Hk w. unfold bind. destruct (Hg w) as [l Hl]. destruct (Hr w) as [a Ha].
  destruct (m w) as [[a'|e'] w1]; simpl in *; [|discriminate].
  destruct (Hk a' w1) as (l1 & l2 & Hl'). exists (l ++ l1)%list, l2.
  rewrite Hl', Hl. now rewrite <- !app_assoc.
Qed.

Lemma logs_emitted {A} (e : LogEntry) (m : M A) (w : World) :
  logs e m -> e ∈ emitted m w.
Proof.
  intros H. destruct (H w) as (l1 & l2 & Hl). unfold emitted.
  rewrite Hl, drop_app_length. apply elem_of_app. right. apply elem_of_cons. now left.
Qed.

Lemma returns_console_log (e : LogEntry) : returns (console_log e).
Proof. intros w. now exists tt. Qed.

Lemma returns_processReadyFile (filePath : string) : returns (processReadyFile filePath).
Proof. intros w. exists tt. apply processReadyFile_returns. Qed.

(** The body of the poll's loop. *)
Lemma poll_body_grows (file : string) :
  grows (if JS.endsWith file ".ready" then
           console_log (Log ("SYSTEM: Found ready file: " +:+ file)) ;;;
           processReadyFile file
         else ret tt).
Proof.
  destruct (JS.endsWith file ".ready"); [|apply grows_ret].
  apply grows_bind; [apply grows_console_log | intros _; apply grows_processReadyFile].
Qed.

Lemma poll_body_returns (file : string) :
  returns (if JS.endsWith file ".ready" then
             console_log (Log ("SYSTEM: Found ready file: " +:+ file)) ;;;
             processReadyFile file
           else ret tt).
Proof.
  intros w. exists tt. destruct (JS.endsWith file ".ready"); [|reflexivity].
  unfold bind, console_log at 1. apply processReadyFile_returns.
Qed.

(** Every element of the list gets its turn: a line that the body logs for
    [x] is logged by the loop, whatever the turns before it did, as long as
    no turn throws. *)
Lemma for_of_logs {A} (e : LogEntry) (xs : list A) (body : A -> M unit) (x : A) :
  (forall y, grows (body y)) -> (forall y, returns (body y)) ->
  x ∈ xs -> logs e (body x) -> logs e (for_of xs body).
Proof.
  intros Hg Hr Hin He. induction xs as [|y xs IH]; [now apply elem_of_nil in Hin|].
  cbn [for_of]. apply elem_of_cons in Hin as [Hx|Hin].
  - subst y. apply logs_bind_l; [exact He | intros _; now apply grows_for_of].
  - apply logs_bind_r; [apply Hg | apply Hr | intros _; now apply IH].
Qed.

Lemma indexOf_from_listed (arr : list string) (x : string) (i : Z) :
  0 <= i -> x ∈ arr -> 0 <= JS.indexOf_from i arr x.
Proof.
  revert i. induction arr as [|y arr IH]; intros i Hi Hin; [now apply elem_of_nil in Hin|].
  cbn [JS.indexOf_from]. destruct (String.eqb_spec y x) as [|Hne]; [exact Hi|].
  apply elem_of_cons in Hin as [->|Hin]; [contradiction|].
  apply IH; [lia | exact Hin].
Qed.

(** For accepted content whose path the record lists, the removal throws
    and the last line on the console is the handler's. *)
Lemma processReadyFile_caught (w : World) (c : CoordinationData) (filePath : string) :
  coordination_file w = Some c ->
  filePath ∈ activeFiles (other_enhancer c) ->
  valid (validateEnhancements
           (default "" (files w !! JS.replace filePath ".ready" ".enhancer.ts"))) = true ->
  last (console (processReadyFile filePath w).2)
  = Some (LogError ("SYSTEM: Failed to process ready file " +:+ filePath +:+ ":")
                   (ReferenceError "coordinationData")).
Proof.
  intros Hc Hin Hv.
  destruct (processReadyFile_accepted w filePath Hv) as (w1 & Hrun & Hstore & _).
  rewrite Hrun. unfold after_apply, try_catch, bind at 1.
  rewrite <- Hstore in Hc.
  assert (Hi : JS.indexOf (activeFiles (other_enhancer c)) filePath <> -1).
  { pose proof (indexOf_from_listed _ filePath 0 ltac:(lia) Hin). unfold JS.indexOf. lia. }
  pose proof (removeFileFromCoordination_listed w1 c filePath Hc Hi) as Ht.
  destruct (removeFileFromCoordination filePath w1) as [[[]|e] w2]; simpl in Ht;
    [discriminate|].
  injection Ht as ->. unfold console_log. cbn [snd console]. apply last_snoc.
Qed.

Lemma checkForEnhancerUpdates_fresh (w : World) (c : CoordinationData) :
  coordination_file w = Some c ->
  status (other_enhancer c) = enh_active ->
  clock w - lastHeartbeat (other_enhancer c) < 60000 ->
  checkForEnhancerUpdates w
  = (console_log (Log ("SYSTEM: Other enhancer updated recently ("
                       +:+ pretty ((clock w - lastHeartbeat (other_enhancer c)) / 1000)
                       +:+ "s ago)")) ;;;
     for_of (activeFiles (other_enhancer c))
            (fun file =>
               if JS.endsWith file ".ready" then
                 console_log (Log ("SYSTEM: Found ready file: " +:+ file)) ;;;
                 processReadyFile file
               else ret tt)) w.
Proof.
  intros Hc Hs Ha.
  unfold checkForEnhancerUpdates, bind at 1, readCoordinationFile at 1. rewrite Hc.
  unfold bind at 1, Date_now at 1.
  rewrite (bool_decide_eq_true_2 _ Hs).
  destruct (Z.ltb_spec (clock w - lastHeartbeat (other_enhancer c)) 60000); [|lia].
  reflexivity.
Qed.

(** X1: neither [processReadyFile] nor the peer poll ever throws; what goes
    wrong while an artifact is processed is caught and logged; and the poll
    goes on to the next path. In the pipeline the one thing that throws is
    the removal of a listed path from the record, after accepted content
    has been applied: then the last line on the console is the handler's
    [Failed to process ready file] with the [ReferenceError] it caught. And
    when the peer is active and fresh, the poll logs [Processing ready
    file] for every ready-marked path of the record, whatever happened to
    the paths before it. *)
Theorem pipeline_never_throws :
  (forall (w : World) (filePath : string),
      (processReadyFile filePath w).1 = Returned tt)
  /\ (forall w : World, (checkForEnhancerUpdates w).1 = Returned tt)
  /\ (forall (w : World) (c : CoordinationData) (filePath : string),
        coordination_file w = Some c ->
        filePath ∈ activeFiles (other_enhancer c) ->
        valid (validateEnhancements
                 (default "" (files w !! JS.replace filePath ".ready" ".enhancer.ts")))
        = true ->
        last (console (processReadyFile filePath w).2)
        = Some (LogError ("SYSTEM: Failed to process ready file " +:+ filePath +:+ ":")
                         (ReferenceError "coordinationData")))
  /\ (forall (w : World) (c : CoordinationData) (file : string),
        coordination_file w = Some c ->
        status (other_enhancer c) = enh_active ->
        clock w - lastHeartbeat (other_enhancer c) < 60000 ->
        file ∈ activeFiles (other_enhancer c) ->
        JS.endsWith file ".ready" = true ->
        Log ("SYSTEM: Processing ready file: " +:+ file)
        ∈ emitted checkForEnhancerUpdates w).
Proof.
  split; [apply processReadyFile_returns|]. split; [|split].
  - intros w. unfold checkForEnhancerUpdates, bind at 1.
    destruct (readCoordinationFile w) as [[c|e] w1] eqn:Hr.
    + unfold bind at 1, Date_now at 1. cbn [fst snd].
      destruct (_ && _); [|reflexivity].
      unfold bind at 1, console_log at 1.
      apply for_of_returns. intros x w2.
      destruct (JS.endsWith x ".ready"); [|reflexivity].
      unfold bind, console_log at 1. apply processReadyFile_returns.
    + unfold readCoordinationFile in Hr.
      destruct (coordination_file w); discriminate.
  - apply processReadyFile_caught.
  - intros w c file Hc Hs Ha Hin Hready.
    unfold emitted. rewrite (checkForEnhancerUpdates_fresh w c Hc Hs Ha).
    apply (logs_emitted _ (_ ;;; _)).
    apply logs_bind_r; [apply grows_console_log | apply returns_console_log |]. intros _.
    apply (for_of_logs _ _ _ file); [apply poll_body_grows | apply poll_body_returns
                                    | exact Hin |].
    rewrite Hready.
    apply logs_bind_r; [apply grows_console_log | apply returns_console_log |]. intros _.
    unfold processReadyFile.
    apply logs_bind_l; [apply logs_console_log|]. intros _.
    apply grows_try_catch; [|intros e; apply grows_console_log].
    apply grows_bind; [now apply grows_silent|]. intros enhancedContent.
    destruct (valid _); [|apply grows_console_log].
    apply grows_bind; [apply grows_console_log|]. intros _.
    apply grows_bind; [apply grows_applyEnhancements|]. intros _.
    apply grows_bind; [apply grows_removeFileFromCoordination|]. intros _.
    apply grows_console_log.
Qed.

(** In the scenario the record lists two ready-marked paths; the first is
    applied and its removal fails, and the second is processed all the
    same. *)
Lemma pipeline_never_throws_witness :
  (checkForEnhancerUpdates two_ready_world).1 = Returned tt
  /\ last (console (processReadyFile "src/a.ts.ready" two_ready_world).2)
     = Some (LogError "SYSTEM: Failed to process ready file src/a.ts.ready:"
                      (ReferenceError "coordinationData"))
  /\ Log "SYSTEM: Processing ready file: src/b.ts.ready"
     ∈ emitted checkForEnhancerUpdates two_ready_world.
Proof.
  destruct pipeline_never_throws as (_ & Hpoll & Hcaught & Hnext).
  split; [apply Hpoll|]. split.
  - apply (Hcaught two_ready_world two_ready_record "src/a.ts.ready");
      [reflexivity | apply elem_of_cons; now left | reflexivity].
  - apply (Hnext two_ready_world two_ready_record "src/b.ts.ready");
      [reflexivity | reflexivity | reflexivity
      | apply elem_of_cons; right; apply elem_of_cons; now left | reflexivity].
Defined.

(** X2: content that fails validation is logged with all its violations and
    nothing else happens: no file is written, the coordination record is
    not touched, so the peer's entry stays for a resend. *)
Theorem processReadyFile_rejected (w : World) (filePath : string) :
  let enhancedContent :=
    default "" (files w !! JS.replace filePath ".ready" ".enhancer.ts") in
  valid (validateEnhancements enhancedContent) = false ->
  processReadyFile filePath w =
    (Returned tt,
     mkWorld (clock w) (coordination_file w) (files w) (file_writes w)
       (console w ++
        [Log ("SYSTEM: Processing ready file: " +:+ filePath);
         Log ("SYSTEM: Enhancements invalid for " +:+ filePath +:+ " - "
              +:+ JS.join ", " (errors (validateEnhancements enhancedContent)))])).
Proof.
  intros enhancedContent Hv. subst enhancedContent.
  unfold processReadyFile, bind at 1, console_log at 1, try_catch.
  unfold bind at 1, readFile at 1. cbn [fst snd files].
  rewrite Hv. unfold console_log. simpl. rewrite <- app_assoc. reflexivity.
Qed.

Lemma processReadyFile_rejected_witness :
  processReadyFile "src/a.ts.ready" rejected_world =
    (Returned tt,
     mkWorld 2000 (Some pipeline_record) (files rejected_world) []
       [Log "SYSTEM: Processing ready file: src/a.ts.ready";
        Log ("SYSTEM: Enhancements invalid for src/a.ts.ready - "
             +:+ "Invalid TypeScript code, Undefined references detected")]).
Proof.
  apply (processReadyFile_rejected rejected_world "src/a.ts.ready"). reflexivity.
Defined.

(** X3: the peer poll acts only on a fresh, active peer. With a readable
    record whose peer is not active, or whose last heartbeat is 60000 ms old
    or older, the poll returns without logging, writing or processing
    anything, ready-marked paths or not. *)
Theorem checkForEnhancerUpdates_stale_peer (w : World) (c : CoordinationData) :
  coordination_file w = Some c ->
  status (other_enhancer c) <> enh_active
  \/ 60000 <= clock w - lastHeartbeat (other_enhancer c) ->
  checkForEnhancerUpdates w = (Returned tt, w).
Proof.
  intros Hc Hstale.
  unfold checkForEnhancerUpdates, bind, readCoordinationFile, Date_now.
  rewrite Hc. cbn [fst snd other_enhancer].
  replace (_ && _) with false; [reflexivity|].
  symmetry. apply andb_false_iff. destruct Hstale as [Hs|Ha].
  - left. now apply bool_decide_eq_false_2.
  - right. apply Z.ltb_ge. exact Ha.
Qed.

Lemma checkForEnhancerUpdates_stale_peer_witness :
  checkForEnhancerUpdates stale_world = (Returned tt, stale_world).
Proof.
  apply (checkForEnhancerUpdates_stale_peer stale_world stale_record);
    [reflexivity | right; vm_compute; discriminate].
Defined.

(** The files after an accepted artifact has been processed. *)
Lemma processReadyFile_accepted_files (w : World) (filePath : string) :
  let enhancedContent :=
    default "" (files w !! JS.replace filePath ".ready" ".enhancer.ts") in
  let originalPath := JS.replace filePath ".ready" "" in
  valid (validateEnhancements enhancedContent) = true ->
  files (processReadyFile filePath w).2
  = <[originalPath +:+ ".backup" := default "" (files w !! originalPath)]>
      (<[originalPath := enhancedContent]> (files w)).
Proof.
  intros enhancedContent originalPath Hv.
  destruct (processReadyFile_accepted w filePath Hv) as (w1 & Hrun & _ & Hfiles).
  rewrite Hrun. destruct (keeps_after_apply filePath w1) as [Hk _].
  now rewrite Hk.
Qed.

(** X5: processing is not idempotent on the backup. Since the artifact's
    entry is never removed, the same ready path can be processed again; the
    second run backs up the already patched target, so the backup then
    holds the new content and the pre-patch content is gone. *)
Theorem processReadyFile_twice_overwrites_backup (w : World) (filePath : string) :
  let enhancedContent :=
    default "" (files w !! JS.replace filePath ".ready" ".enhancer.ts") in
  let originalPath := JS.replace filePath ".ready" "" in
  let w2 := (processReadyFile filePath (processReadyFile filePath w).2).2 in
  JS.includes filePath ".ready" = true ->
  valid (validateEnhancements enhancedContent) = true ->
  files w2 !! originalPath = Some enhancedContent
  /\ files w2 !! (originalPath +:+ ".backup") = Some enhancedContent.
Proof.
  intros enhancedContent originalPath w2 Hready Hv. subst w2.
  destruct (ready_paths_distinct filePath Hready) as [Hct Hcb].
  pose proof (processReadyFile_accepted_files w filePath Hv) as Hf1.
  cbv zeta in Hf1. fold originalPath enhancedContent in Hf1.
  set (w1 := (processReadyFile filePath w).2) in *.
  assert (Hcomp : default "" (files w1 !! JS.replace filePath ".ready" ".enhancer.ts")
                  = enhancedContent).
  { rewrite Hf1. rewrite !lookup_insert_ne by (intros E; symmetry in E; auto).
    reflexivity. }
  assert (Hv1 : valid (validateEnhancements
                         (default "" (files w1 !! JS.replace filePath ".ready"
                                                     ".enhancer.ts"))) = true)
    by (rewrite Hcomp; exact Hv).
  destruct (processReadyFile_files w1 filePath Hv1) as [Hb Ht].
  fold originalPath in Hb, Ht. rewrite Hcomp in Ht.
  split; [exact Ht|]. rewrite Hb. f_equal.
  rewrite Hf1. rewrite lookup_insert_ne by (symmetry; apply backup_path_fresh).
  rewrite lookup_insert_eq. reflexivity.
Qed.

Lemma processReadyFile_twice_overwrites_backup_witness :
  let w2 := (processReadyFile "src/a.ts.ready"
               (processReadyFile "src/a.ts.ready" pipeline_world).2).2 in
  files w2 !! "src/a.ts" = Some "export const a = 1;"
  /\ files w2 !! "src/a.ts.backup" = Some "export const a = 1;".
Proof.
  apply (processReadyFile_twice_overwrites_backup pipeline_world "src/a.ts.ready");
    reflexivity.
Defined.

(** X6: the status updates share the heartbeat's defect. Neither
    [updateCoordinationStatus] nor [updateEvolutionStatus] reaches the
    write: each throws a [ReferenceError] on the argument
    [coordinationData] and leaves the persisted record as it was. *)
Theorem status_updates_persist_nothing (w : World) :
  (forall st : SystemStatus,
      (updateCoordinationStatus st w).1 = Thrown (ReferenceError "coordinationData")
      /\ coordination_file (updateCoordinationStatus st w).2 = coordination_file w)
  /\ (forall (st : EvolutionStatus) (cyc : option Z),
        (updateEvolutionStatus st cyc w).1 = Thrown (ReferenceError "coordinationData")
        /\ coordination_file (updateEvolutionStatus st cyc w).2 = coordination_file w).
Proof.
  split.
  - intros st. unfold updateCoordinationStatus, bind, readCoordinationFile.
    destruct (coordination_file w) eqn:E; simpl; rewrite ?E; split; reflexivity.
  - intros st cyc. unfold updateEvolutionStatus, bind, readCoordinationFile.
    destruct (coordination_file w) eqn:E; simpl.
    + destruct (_ && _); simpl; rewrite ?E; split; reflexivity.
    + destruct (bool_decide _ && _); simpl; rewrite ?E; split; reflexivity.
Qed.

(** The lines of a conflict check when the coordination file cannot be
    read: the default record has the peer idle. *)
Lemma checkForConflicts_emitted_unreadable (w : World) :
  coordination_file w = None ->
  emitted checkForConflicts w
  = [Log "SYSTEM: Checking for conflicts...";
     Log "Failed to read coordination file:";
     Log "SYSTEM: No conflicts detected"].
Proof.
  intros Hc.
  unfold emitted, checkForConflicts, bind, readCoordinationFile, console_log at 1.
  cbn [coordination_file]. rewrite Hc.
  unfold bind, console_log, Date_now, ret. cbn.
  rewrite bool_decide_eq_false_2 by discriminate. cbn.
  rewrite <- !app_assoc. rewrite drop_app_length. reflexivity.
Qed.

(** X7: [initializeCoordination] does not replace the coordination file:
    its write only logs the fresh record. The file is as it was, so the
    conflict check that the boot sequence runs next reports exactly what it
    reports on the record that was there before, a conflict included. *)
Theorem checkForConflicts_after_initializeCoordination (w : World) :
  coordination_file (initializeCoordination w).2 = coordination_file w
  /\ LogRecord (default_coordination (clock w)) ∈ emitted initializeCoordination w
  /\ emitted checkForConflicts (initializeCoordination w).2
     = emitted checkForConflicts w
  /\ (forall c : CoordinationData,
        coordination_file w = Some c ->
        status (other_enhancer c) = enh_active ->
        clock w - lastHeartbeat (other_enhancer c) < 300000 ->
        activeFiles (other_enhancer c) <> [] ->
        Log conflict_line ∈ emitted checkForConflicts (initializeCoordination w).2).
Proof.
  assert (Hsame : emitted checkForConflicts (initializeCoordination w).2
                  = emitted checkForConflicts w).
  { destruct (coordination_file w) as [c|] eqn:Hc.
    - rewrite (checkForConflicts_emitted _ c) by exact Hc.
      rewrite (checkForConflicts_emitted w c) by exact Hc. reflexivity.
    - rewrite (checkForConflicts_emitted_unreadable w) by exact Hc.
      apply checkForConflicts_emitted_unreadable. exact Hc. }
  split; [reflexivity|]. split; [|split; [exact Hsame|]].
  - destruct (initializeCoordination_reaches_write w) as [_ ->].
    rewrite !elem_of_cons. auto.
  - intros c Hc Hs Hage Hf. rewrite Hsame.
    rewrite (checkForConflicts_emitted w c) by exact Hc. cbv zeta.
    rewrite Hs, bool_decide_eq_true_2 by reflexivity.
    replace (clock w - lastHeartbeat (other_enhancer c) <? 300000) with true
      by (symmetry; apply Z.ltb_lt; exact Hage).
    destruct (activeFiles (other_enhancer c)) as [|f fs]; [congruence|].
    replace (0 <? Z.of_nat (length (f :: fs))) with true
      by (symmetry; apply Z.ltb_lt; simpl; lia).
    cbn [andb]. rewrite !elem_of_cons, elem_of_app, list_elem_of_singleton. auto.
Qed.

Lemma checkForConflicts_after_initializeCoordination_witness :
  Log conflict_line
  ∈ emitted checkForConflicts
      (initializeCoordination (at_time (1000000 + 250000) conflict_world)).2.
Proof.
  apply (proj2 (proj2 (proj2 (checkForConflicts_after_initializeCoordination
                                (at_time (1000000 + 250000) conflict_world))))
           conflict_record);
    [reflexivity | reflexivity | reflexivity | discriminate].
Defined.

Lemma for_of_skips {A} (xs : list A) (body : A -> M unit) (w : World) :
  (forall x, x ∈ xs -> body x = ret tt) -> for_of xs body w = (Returned tt, w).
Proof.
  induction xs as [|x xs IH]; intros H; simpl; [reflexivity|].
  unfold bind. rewrite (H x) by left. cbn [ret]. apply IH.
  intros y Hy. apply H. now right.
Qed.

(** X4: the poll hands only ready-marked paths to the pipeline. With a
    fresh, active peer none of whose active files ends in [.ready], the
    poll logs that the peer updated recently and does nothing else: no file
    is read for validation, none is written, the record is not touched. *)
Theorem checkForEnhancerUpdates_no_ready_file (w : World) (c : CoordinationData) :
  coordination_file w = Some c ->
  status (other_enhancer c) = enh_active ->
  clock w - lastHeartbeat (other_enhancer c) < 60000 ->
  (forall file, file ∈ activeFiles (other_enhancer c) -> JS.endsWith file ".ready" = false) ->
  checkForEnhancerUpdates w =
    (Returned tt,
     mkWorld (clock w) (coordination_file w) (files w) (file_writes w)
       (console w ++
        [Log ("SYSTEM: Other enhancer updated recently ("
              +:+ pretty ((clock w - lastHeartbeat (other_enhancer c)) / 1000)
              +:+ "s ago)")])).
Proof.
  intros Hc Hs Hage Hnone.
  unfold checkForEnhancerUpdates, bind at 1, readCoordinationFile.
  rewrite Hc. unfold bind at 1, Date_now at 1. cbn [fst snd other_enhancer].
  rewrite Hs, bool_decide_eq_true_2 by reflexivity.
  replace (clock w - lastHeartbeat (other_enhancer c) <? 60000) with true
    by (symmetry; apply Z.ltb_lt; exact Hage).
  cbn [andb]. unfold bind at 1, console_log at 1. cbn [fst snd].
  rewrite for_of_skips; [rewrite Hc; reflexivity|].
  intros file Hf. rewrite (Hnone file Hf). reflexivity.
Qed.

Lemma checkForEnhancerUpdates_no_ready_file_witness :
  checkForEnhancerUpdates (at_time (1000000 + 30000) conflict_world) =
    (Returned tt,
     mkWorld 1030000 (Some conflict_record) ∅ []
             [Log "SYSTEM: Other enhancer updated recently (30s ago)"]).
Proof.
  rewrite (checkForEnhancerUpdates_no_ready_file
             (at_time (1000000 + 30000) conflict_world) conflict_record);
    [reflexivity | reflexivity | reflexivity | reflexivity |].
  intros file Hf. apply list_elem_of_singleton in Hf as ->. reflexivity.
Defined.


End PipelineProofs.

(* ===================================================================== *)
(** * Properties of boot, shutdown and restart *)
(* ===================================================================== *)

Module BootSequenceProofs.
Import Bootstrap BootSequence.
Local Open Scope boot_scope.

(** ** How exceptions and the object's fields travel through a sequence *)

Lemma untouched_trans (p1 p2 p3 : Process) :
  untouched p1 p2 -> untouched p2 p3 -> untouched p1 p3.
Proof. unfold untouched. intuition congruence. Qed.

Lemma raises_with_always {A} (e : Exception) (m : B A) :
  raises_with e m -> always_raises m.
Proof. intros H p. exists e. apply H. Qed.

Lemma always_raises_bind_l {A T} (m : B A) (k : A -> B T) :
  always_raises m -> always_raises (bindB m k).
Proof.
  intros Hm p. unfold bindB. destruct (Hm p) as [e He].
  destruct (m p) as [[a|e'] p']; simpl in *; [discriminate|]. now exists e'.
Qed.

Lemma always_raises_bind_r {A T} (m : B A) (k : A -> B T) :
  (forall a, always_raises (k a)) -> always_raises (bindB m k).
Proof.
  intros Hk p. unfold bindB.
  destruct (m p) as [[a|e'] p']; simpl; [apply Hk | now exists e'].
Qed.

Lemma raises_with_bind {A T} (e : Exception) (m : B A) (k : A -> B T) :
  never_raises m -> (forall a, raises_with e (k a)) -> raises_with e (bindB m k).
Proof.
  intros Hm Hk p. unfold bindB. destruct (Hm p) as [a Ha].
  destruct (m p) as [[a'|e'] p']; simpl in *; [apply Hk | discriminate].
Qed.

Lemma raises_with_bind_l {A T} (e : Exception) (m : B A) (k : A -> B T) :
  raises_with e m -> raises_with e (bindB m k).
Proof.
  intros Hm p. unfold bindB. specialize (Hm p).
  destruct (m p) as [[a'|e'] p']; simpl in *; [discriminate | congruence].
Qed.

Lemma raises_with_try {A} (e : Exception) (body : B A) (h : Exception -> B A) :
  always_raises body -> (forall e', raises_with e (h e')) ->
  raises_with e (try_catchB body h).
Proof.
  intros Hb Hh p. unfold try_catchB. destruct (Hb p) as [e' He'].
  destruct (body p) as [[a|e''] p']; simpl in *; [discriminate | apply Hh].
Qed.

Lemma always_raises_try {A} (body : B A) (h : Exception -> B A) :
  always_raises body -> (forall e', always_raises (h e')) ->
  always_raises (try_catchB body h).
Proof.
  intros Hb Hh p. unfold try_catchB. destruct (Hb p) as [e' He'].
  destruct (body p) as [[a|e''] p']; simpl in *; [discriminate | apply Hh].
Qed.

Lemma preserves_bind {A T} (m : B A) (k : A -> B T) :
  preserves m -> (forall a, preserves (k a)) -> preserves (bindB m k).
Proof.
  intros Hm Hk p. unfold bindB. specialize (Hm p).
  destruct (m p) as [[a|e] p']; simpl in *; [|exact Hm].
  eapply untouched_trans; [exact Hm | apply Hk].
Qed.

Lemma preserves_bind_raises {A T} (m : B A) (k : A -> B T) :
  preserves m -> always_raises m -> preserves (bindB m k).
Proof.
  intros Hm Hr p. unfold bindB. specialize (Hm p). destruct (Hr p) as [e He].
  destruct (m p) as [[a|e'] p']; simpl in *; [discriminate | exact Hm].
Qed.

Lemma preserves_try {A} (body : B A) (h : Exception -> B A) :
  preserves body -> (forall e, preserves (h e)) -> preserves (try_catchB body h).
Proof.
  intros Hb Hh p. unfold try_catchB. specialize (Hb p).
  destruct (body p) as [[a|e] p']; simpl in *; [exact Hb|].
  eapply untouched_trans; [exact Hb | apply Hh].
Qed.

Lemma preserves_lift {A} (m : M A) : preserves (lift m).
Proof.
  intros p. unfold lift. destruct (m (world p)) as [[a|e] w']; repeat split.
Qed.

Lemma preserves_call {A} (f : World -> result A * World) : preserves (call f).
Proof. intros p. unfold call. destruct (f (world p)) as [r w']; repeat split. Qed.

Lemma preserves_log (line : string) : preserves (log line).
Proof. apply preserves_lift. Qed.

Lemma preserves_warn (line : string) : preserves (warn line).
Proof. apply preserves_lift. Qed.

Lemma preserves_log_error (line : string) (e : Exception) : preserves (log_error line e).
Proof. destruct e; apply preserves_lift. Qed.

Lemma preserves_raise {A} (e : Exception) : preserves (@raise A e).
Proof. intros p. repeat split. Qed.

Lemma never_raises_log (line : string) : never_raises (log line).
Proof. intros p. exists tt. reflexivity. Qed.

Lemma never_raises_log_error (line : string) (e : Exception) :
  never_raises (log_error line e).
Proof. intros p. exists tt. destruct e; reflexivity. Qed.

(** The update of the coordination status, wherever it is called from,
    throws on its unbound argument. *)
Lemma updateCoordinationStatus_throws (st : SystemStatus) (w : World) :
  (updateCoordinationStatus st w).1 = Thrown (ReferenceError "coordinationData").
Proof.
  unfold updateCoordinationStatus, Bootstrap.bind, readCoordinationFile.
  destruct (coordination_file w); reflexivity.
Qed.

Lemma updateCoordinationStatus_keeps_record (st : SystemStatus) (w : World) :
  coordination_file (updateCoordinationStatus st w).2 = coordination_file w.
Proof.
  unfold updateCoordinationStatus, Bootstrap.bind, readCoordinationFile.
  destruct (coordination_file w) eqn:E; simpl; rewrite ?E; reflexivity.
Qed.

Lemma lift_throws {A} (m : M A) (e : JsError) :
  (forall w, (m w).1 = Thrown e) -> raises_with (Js e) (lift m).
Proof.
  intros H p. unfold lift. specialize (H (world p)).
  destruct (m (world p)) as [[a|e'] w']; simpl in *; [discriminate | congruence].
Qed.

Section Boot.

Variable omegaOrchestrator_initialize : World -> result unit * World.
Variable recordBootExperience : Z -> World -> result unit * World.
Variable recordBootErrorExperience : Exception -> Z -> World -> result unit * World.

Lemma initializeOmegaSystem_raises :
  always_raises (initializeOmegaSystem omegaOrchestrator_initialize).
Proof.
  unfold initializeOmegaSystem.
  apply always_raises_bind_r. intros _.
  apply always_raises_try.
  - apply always_raises_bind_r. intros _.
    apply always_raises_bind_l. apply (raises_with_always unbound).
    apply lift_throws. apply updateCoordinationStatus_throws.
  - intros e. apply always_raises_bind_r. intros _. intros p. now exists e.
Qed.

Lemma initializeOmegaSystem_preserves :
  preserves (initializeOmegaSystem omegaOrchestrator_initialize).
Proof.
  unfold initializeOmegaSystem.
  apply preserves_bind; [apply preserves_log|]. intros _.
  apply preserves_try.
  - apply preserves_bind; [apply preserves_call|]. intros _.
    apply preserves_bind; [apply preserves_lift|]. intros _. apply preserves_log.
  - intros e. apply preserves_bind; [apply preserves_log_error|]. intros _.
    apply preserves_raise.
Qed.

Lemma handleBootError_raises (error : Exception) :
  raises_with unbound (handleBootError recordBootErrorExperience error).
Proof.
  unfold handleBootError.
  apply raises_with_bind; [apply never_raises_log|]. intros _.
  apply raises_with_bind_l. apply lift_throws.
  intros w. apply (updateCoordinationStatus_throws sys_error w).
Qed.

Lemma handleBootError_preserves (error : Exception) :
  preserves (handleBootError recordBootErrorExperience error).
Proof.
  unfold handleBootError.
  apply preserves_bind; [apply preserves_log|]. intros _.
  apply preserves_bind_raises; [apply preserves_lift|].
  apply (raises_with_always unbound). apply lift_throws.
  intros w. apply (updateCoordinationStatus_throws sys_error w).
Qed.

(** X8: the boot sequence cannot complete. [initializeOmegaSystem] always
    fails, on the orchestrator's error or else on its own status update;
    [boot()] catches that and calls [handleBootError], whose write of the
    record throws the [ReferenceError] again, so [boot()] on an object that
    is not booted ends with that [ReferenceError] (the [System boot failed]
    error is never built), whatever the orchestrator's initialisation does.
    The object is still not booted and neither the heartbeat nor the peer
    poll has been registered. On a booted object [boot()] only warns: it
    returns, and the object after the call is the object before it with the
    one line [SYSTEM: Already booted] added to the console by
    [console.warn], so the clock, the record, the files and every field of
    the object are as they were. In no case does it change [isBooted],
    [isInitialized] or the registered intervals. *)
Theorem boot_never_completes (p : Process) :
  let boot := boot omegaOrchestrator_initialize recordBootExperience
                   recordBootErrorExperience in
  untouched p (boot p).2
  /\ (isBooted p = false -> (boot p).1 = Raise unbound)
  /\ (isBooted p = true -> (boot p).1 = Ok tt)
  /\ (isBooted p = true ->
      (boot p).2
      = mkProcess (isInitialized p) true (initializationStartTime p) (intervals p)
          (mkWorld (clock (world p)) (coordination_file (world p)) (files (world p))
                   (file_writes (world p))
                   (console (world p) ++ [Warn "SYSTEM: Already booted"])%list)).
Proof.
  intros boot0. subst boot0. unfold boot.
  destruct (isBooted p) eqn:Hb.
  - split; [apply preserves_warn|]. split; [discriminate|].
    split; [reflexivity|]. intros _. unfold warn, lift, with_world. cbn. now rewrite Hb.
  - set (body := (fun now : Z => set_initializationStartTime now ;;> _)).
    assert (Hraise : forall now, raises_with unbound (body now)).
    { intros now. subst body. cbv beta.
      apply raises_with_bind; [intros q; now exists tt|]. intros _.
      apply raises_with_bind; [apply never_raises_log|]. intros _.
      apply raises_with_bind; [apply never_raises_log|]. intros _.
      apply raises_with_try.
      - apply always_raises_bind_r. intros _.
        apply always_raises_bind_r. intros _.
        apply always_raises_bind_l. apply initializeOmegaSystem_raises.
      - intros e.
        apply raises_with_bind; [apply never_raises_log_error|]. intros _.
        apply raises_with_bind_l. apply handleBootError_raises. }
    assert (Hpres : forall now, preserves (body now)).
    { intros now. subst body. cbv beta.
      apply preserves_bind; [intros q; repeat split|]. intros _.
      apply preserves_bind; [apply preserves_log|]. intros _.
      apply preserves_bind; [apply preserves_log|]. intros _.
      apply preserves_try.
      - apply preserves_bind; [apply preserves_lift|]. intros _.
        apply preserves_bind; [apply preserves_lift|]. intros _.
        apply preserves_bind_raises;
          [apply initializeOmegaSystem_preserves | apply initializeOmegaSystem_raises].
      - intros e.
        apply preserves_bind; [apply preserves_log_error|]. intros _.
        apply preserves_bind_raises; [apply handleBootError_preserves|].
        apply (raises_with_always unbound). apply handleBootError_raises. }
    split; [|split; [intros _ | split; discriminate]].
    + apply (preserves_bind (lift Date_now) body); [apply preserves_lift | exact Hpres].
    + apply (raises_with_bind unbound (lift Date_now) body);
        [intros q; now exists (clock (world q)) | exact Hraise].
Qed.

(** [shutdown()] clears both flags and then throws. *)
Lemma shutdown_run (p : Process) :
  exists w' : World,
    shutdown p = (Raise unbound, mkProcess false false (initializationStartTime p)
                                           (intervals p) w').
Proof.
  unfold shutdown, bindB, log, set_isBooted, set_isInitialized, lift, console_log.
  cbn [fst snd world isInitialized isBooted initializationStartTime intervals with_world].
  match goal with |- context [updateCoordinationStatus sys_idle ?w0] =>
    pose proof (updateCoordinationStatus_throws sys_idle w0) as Ht;
    destruct (updateCoordinationStatus sys_idle w0) as [[[]|e] w1]
  end; simpl in Ht; [discriminate|]. inversion Ht; subst.
  eexists. reflexivity.
Qed.

(** X9: [shutdown()] marks the object as neither booted nor initialised and
    then throws with the coordination record unwritten, leaving the
    registered intervals in place; [restart()] therefore ends inside its
    [shutdown()] and never calls [boot()]. *)
Theorem restart_stops_at_shutdown (p : Process) :
  let restart := restart omegaOrchestrator_initialize recordBootExperience
                         recordBootErrorExperience in
  (shutdown p).1 = Raise unbound
  /\ isBooted (shutdown p).2 = false
  /\ isInitialized (shutdown p).2 = false
  /\ intervals (shutdown p).2 = intervals p
  /\ coordination_file (world (shutdown p).2) = coordination_file (world p)
  /\ restart p = shutdown (log "SYSTEM: Restarting OMEGA AI System..." p).2.
Proof.
  intros restart0. subst restart0.
  destruct (shutdown_run p) as [w' Hs].
  assert (Hstore : coordination_file (world (shutdown p).2) = coordination_file (world p)).
  { unfold shutdown, bindB, log, set_isBooted, set_isInitialized, lift, console_log.
    cbn [fst snd world isInitialized isBooted initializationStartTime intervals with_world].
    match goal with |- context [updateCoordinationStatus sys_idle ?w0] =>
      pose proof (updateCoordinationStatus_keeps_record sys_idle w0) as Hc;
      destruct (updateCoordinationStatus sys_idle w0) as [[[]|e] w1]
    end; simpl in *; exact Hc. }
  rewrite Hs in *. cbn [fst snd isBooted isInitialized intervals] in *.
  repeat split; try assumption.
  unfold restart.
  set (q := (log "SYSTEM: Restarting OMEGA AI System..." p).2).
  change ((log "SYSTEM: Restarting OMEGA AI System..." ;;>
           shutdown ;;>
           boot omegaOrchestrator_initialize recordBootExperience
                recordBootErrorExperience) p)
    with ((shutdown ;;>
           boot omegaOrchestrator_initialize recordBootExperience
                recordBootErrorExperience) q).
  unfold bindB. destruct (shutdown_run q) as [w'' Hs']. rewrite Hs'. reflexivity.
Qed.

End Boot.

Lemma boot_never_completes_witness :
  (boot layers_come_up experience_stored error_experience_stored
        (fresh_process pipeline_world)).1 = Raise unbound
  /\ (boot layers_come_up experience_stored error_experience_stored
           (mkProcess true true 0 [] pipeline_world)).1 = Ok tt.
Proof.
  split.
  - apply (proj1 (proj2 (boot_never_completes layers_come_up experience_stored
                           error_experience_stored (fresh_process pipeline_world)))).
    reflexivity.
  - apply (proj1 (proj2 (proj2 (boot_never_completes layers_come_up experience_stored
                                  error_experience_stored
                                  (mkProcess true true 0 [] pipeline_world))))).
    reflexivity.
Defined.

(** [getSystemStatus()] never throws and changes neither the flags nor
    the persisted record. It reports the record's status, mode and cycle;
    when the coordination file cannot be read it reports the defaults
    ([initializing], dual mode, cycle 0, evolution idle) instead of failing;
    and the boot time it reports is 0 unless the object is booted. *)
Theorem getSystemStatus_report (p : Process) :
  exists r : SystemStatusReport,
    (getSystemStatus p).1 = Ok r
    /\ untouched p (getSystemStatus p).2
    /\ coordination_file (world (getSystemStatus p).2) = coordination_file (world p)
    /\ rep_isBooted r = isBooted p
    /\ rep_isInitialized r = isInitialized p
    /\ (isBooted p = false -> rep_bootTime r = 0)
    /\ (isBooted p = true ->
        rep_bootTime r = clock (world p) - initializationStartTime p)
    /\ (coordination_file (world p) = None ->
        rep_status r = sys_initializing /\ rep_dualLLMMode r = true
        /\ rep_cycle r = 0 /\ rep_evolution_status r = evo_idle)
    /\ (forall c, coordination_file (world p) = Some c ->
        rep_status r = systemStatus c
        /\ rep_dualLLMMode r = bool_decide (mode c = dual_llm)
        /\ rep_cycle r = cycle (evolution c)
        /\ rep_evolution_status r = evo_status (evolution c)).
Proof.
  unfold getSystemStatus, bindB, lift, readCoordinationFile, Date_now.
  destruct (coordination_file (world p)) as [c|] eqn:Hc; cbn.
  - eexists. split; [reflexivity|]. cbn.
    repeat split; try discriminate; try reflexivity;
      try (intros ->; reflexivity); try exact Hc;
      match goal with H : Some _ = Some _ |- _ => injection H as <-; reflexivity end.
  - eexists. split; [reflexivity|]. cbn.
    repeat split; try discriminate; try reflexivity;
      try (intros ->; reflexivity); exact Hc.
Qed.

Lemma getSystemStatus_report_witness :
  exists r : SystemStatusReport,
    (getSystemStatus (fresh_process apply_world)).1 = Ok r
    /\ rep_bootTime r = 0
    /\ rep_status r = sys_initializing
    /\ rep_cycle r = 0.
Proof.
  destruct (getSystemStatus_report (fresh_process apply_world))
    as (r & Hr & _ & _ & _ & _ & Hboot & _ & Hnone & _).
  exists r. destruct (Hnone eq_refl) as (Hs & _ & Hcy & _).
  split; [exact Hr|]. split; [apply Hboot; reflexivity|]. split; assumption.
Defined.


End BootSequenceProofs.

(* ===================================================================== *)
(** * Further properties of the agentic facade *)
(* ===================================================================== *)

Module AgenticQueriesProofs.
Import Agentic AgenticQueries AgenticProofs.

(** ** Submission and status *)

(** X10: whatever the scheduler answers, the status that [submitTask]
    returns carries the submission's id and is either [completed] with
    progress 1 (the scheduler reported success) or [failed] with progress 0
    (anything else, a timeout included); it is never [pending],
    [in_progress] or [timeout], and the scheduler's error and state are
    passed on as they are. *)
Theorem submitTask_status {Sched : Type}
        (executeTask : Task -> ExecuteOptions -> Sched -> TaskResult * Sched)
        (submission : TaskSubmission) (s : Sched) :
  let r := executeTask (task_of submission) (options_of submission) s in
  let st := (submitTask executeTask submission s).1 in
  ts_taskId st = taskId submission
  /\ (success r.1 = true -> ts_status st = completed /\ progress st = 1%float)
  /\ (success r.1 = false -> ts_status st = failed /\ progress st = 0%float)
  /\ ts_status st <> pending /\ ts_status st <> in_progress /\ ts_status st <> timeout
  /\ ts_error st = res_error r.1
  /\ (submitTask executeTask submission s).2 = r.2.
Proof.
  intros r st. subst r st. rewrite submitTask_call. cbn [fst snd].
  destruct (executeTask _ _ s) as [r s']. cbn [fst snd status_of ts_taskId ts_status
    progress ts_error].
  destruct (success r); repeat split; try discriminate.
Qed.

Lemma submitTask_status_witness :
  ts_status (submitTask recording zero_retries []).1 = completed
  /\ progress (submitTask recording zero_retries []).1 = 1%float.
Proof.
  apply (proj1 (proj2 (submitTask_status recording zero_retries []))). reflexivity.
Defined.

Lemma batchSubmitTasks_cons {Sched : Type}
      (executeTask : Task -> ExecuteOptions -> Sched -> TaskResult * Sched)
      (submission : TaskSubmission) (rest : list TaskSubmission) (s : Sched) :
  batchSubmitTasks executeTask (submission :: rest) s =
    ((submitTask executeTask submission s).1
       :: (batchSubmitTasks executeTask rest (submitTask executeTask submission s).2).1,
     (batchSubmitTasks executeTask rest (submitTask executeTask submission s).2).2).
Proof.
  cbn [batchSubmitTasks]. destruct (submitTask executeTask submission s) as [st s1].
  cbn [fst snd]. destruct (batchSubmitTasks executeTask rest s1) as [sts s2].
  reflexivity.
Qed.

(** X11: a batch returns one status per submission, in the order of the
    submissions: the ids of the statuses are the ids of the submissions,
    position by position. *)
Theorem batchSubmitTasks_ids {Sched : Type}
        (executeTask : Task -> ExecuteOptions -> Sched -> TaskResult * Sched)
        (submissions : list TaskSubmission) (s : Sched) :
  map ts_taskId (batchSubmitTasks executeTask submissions s).1 = map taskId submissions
  /\ length (batchSubmitTasks executeTask submissions s).1 = length submissions.
Proof.
  revert s. induction submissions as [|submission rest IH]; intros s.
  - split; reflexivity.
  - rewrite batchSubmitTasks_cons. cbn [fst map length].
    destruct (IH (submitTask executeTask submission s).2) as [Hids Hlen].
    rewrite Hids, Hlen. split; [|reflexivity]. f_equal.
    rewrite submitTask_call. reflexivity.
Qed.

(** X12: a batch is sequential. Submitting [l1 ++ l2] is submitting [l1]
    and then [l2] from the scheduler state that [l1] left behind; in
    particular every submission is run to its end before the next one is
    handed to the scheduler. *)
Theorem batchSubmitTasks_app {Sched : Type}
        (executeTask : Task -> ExecuteOptions -> Sched -> TaskResult * Sched)
        (l1 l2 : list TaskSubmission) (s : Sched) :
  let first := batchSubmitTasks executeTask l1 s in
  let second := batchSubmitTasks executeTask l2 first.2 in
  batchSubmitTasks executeTask (l1 ++ l2)%list s = ((first.1 ++ second.1)%list, second.2).
Proof.
  revert s. induction l1 as [|submission rest IH]; intros s; cbv zeta.
  - simpl. now destruct (batchSubmitTasks executeTask l2 s).
  - rewrite <- app_comm_cons. rewrite !batchSubmitTasks_cons. cbn [fst snd].
    rewrite IH. reflexivity.
Qed.

(** [getTaskStatus] maps a stored result like [submitTask] does: the
    requested id, [completed] with progress 1 on success and [failed] with
    progress 0 otherwise. *)
Theorem getTaskStatus_status {Sched : Type}
        (getTaskResult : string -> Sched -> TaskResult) (taskId : string) (s : Sched) :
  let st := getTaskStatus getTaskResult taskId s in
  ts_taskId st = taskId
  /\ (ts_status st = completed <-> success (getTaskResult taskId s) = true)
  /\ (ts_status st = failed <-> success (getTaskResult taskId s) = false)
  /\ (progress st = 1%float <-> ts_status st = completed)
  /\ ts_error st = res_error (getTaskResult taskId s).
Proof.
  intros st. subst st. unfold getTaskStatus.
  cbn [ts_taskId ts_status progress ts_error].
  destruct (success (getTaskResult taskId s)); repeat split; try discriminate; auto.
Qed.

(** ** Agent queries *)

(** X13: [getAvailableAgents] lists every registered agent once, in
    registry order, and reports an agent as [available] exactly when it is
    idle; busy and offline agents alike are reported [busy], and no agent
    is ever reported [offline]. *)
Theorem getAvailableAgents_availability (agents : list Agent) :
  map cap_agentId (getAvailableAgents agents) = map id agents
  /\ map availability (getAvailableAgents agents)
     = map (fun a => if bool_decide (status a = idle) then available else cap_busy) agents
  /\ (forall c, c ∈ getAvailableAgents agents -> availability c <> cap_offline).
Proof.
  unfold getAvailableAgents. repeat split.
  - rewrite map_map. reflexivity.
  - rewrite map_map. reflexivity.
  - intros c Hc. apply list_elem_of_fmap in Hc as (a & -> & _).
    cbn. destruct (bool_decide _); discriminate.
Qed.

(** X14: [getAgentCapabilities] answers [null] exactly when no registered
    agent has the requested id; otherwise it answers a capability of the
    registry that carries that id. *)
Theorem getAgentCapabilities_lookup (agents : list Agent) (agentId : string) :
  (getAgentCapabilities agents agentId = None <-> forall a, a ∈ agents -> id a <> agentId)
  /\ (forall c, getAgentCapabilities agents agentId = Some c ->
      cap_agentId c = agentId /\ c ∈ getAvailableAgents agents).
Proof.
  unfold getAgentCapabilities, getAvailableAgents. split.
  - induction agents as [|a l IH]; simpl.
    + split; [intros _ a Ha; inversion Ha | reflexivity].
    + destruct (String.eqb_spec (id a) agentId) as [He|Hne].
      * split; [discriminate|]. intros H. exfalso. apply (H a); [left | exact He].
      * rewrite IH. split.
        -- intros H b Hb. apply elem_of_cons in Hb as [->|Hb]; auto.
        -- intros H b Hb. apply H. now right.
  - intros c Hc. apply find_some in Hc as [Hin He].
    apply String.eqb_eq in He. split; [exact He|].
    apply list_elem_of_In. exact Hin.
Qed.

(** ** Statistics *)

Lemma count_cons {A} (p : A -> bool) (x : A) (l : list A) :
  count p (x :: l) = (if p x then 1 else 0) + count p l.
Proof. unfold count. simpl. destruct (p x); simpl; lia. Qed.

(** X15: the three status counts of [getAgentStatistics] partition the
    registry: [totalAgents = availableAgents + busyAgents + offlineAgents]. *)
Theorem getAgentStatistics_partition (agents : list Agent)
        (taskResults : list TaskResult) :
  let stats := getAgentStatistics agents taskResults in
  totalAgents stats = availableAgents stats + busyAgents stats + offlineAgents stats.
Proof.
  cbv zeta. unfold getAgentStatistics.
  cbn [totalAgents availableAgents busyAgents offlineAgents].
  induction agents as [|a l IH]; [reflexivity|].
  rewrite !count_cons. cbn [length]. rewrite Nat2Z.inj_succ, IH.
  unfold has_status. destruct (status a); repeat case_bool_decide; try congruence; lia.
Qed.

Lemma byDomain_fold (d : string) (agents : list Agent)
      (own : gmap string PropertyValue) :
  inherited d = false ->
  (own !! d = None \/ exists n, own !! d = Some (PNumber n)) ->
  fold_left (fun (byDomain : gmap string PropertyValue) agent =>
               let domain := domain agent in
               assigned byDomain domain (incremented byDomain domain))
            agents own !! d
  = if count (fun a => String.eqb (domain a) d) agents =? 0
    then own !! d
    else Some (PNumber (own_number (own !! d)
                        + count (fun a => String.eqb (domain a) d) agents)).
Proof.
  intros Hd. unfold inherited in Hd. apply orb_false_iff in Hd as [Hproto Hfun].
  apply bool_decide_eq_false in Hfun.
  assert (Hnone : Object_prototype_function d = None).
  { destruct (Object_prototype_function d) eqn:E; [|reflexivity].
    exfalso. apply Hfun. eauto. }
  revert own. induction agents as [|a l IH]; intros own Hown; [reflexivity|].
  cbn [fold_left]. rewrite count_cons.
  pose proof (count_bounds (fun a => String.eqb (domain a) d) l) as [Hc _].
  set (c := count (fun a => String.eqb (domain a) d) l) in *.
  destruct (String.eqb_spec (domain a) d) as [Heq|Hne].
  - rewrite Heq. unfold assigned, incremented. rewrite Hproto.
    assert (Hnew : incremented own d = PNumber (own_number (own !! d) + 1)).
    { unfold incremented. rewrite Hproto.
      destruct Hown as [->|[n ->]]; cbn [own_number].
      - rewrite Hnone. reflexivity.
      - f_equal. f_equal. cbn. destruct (Z.eqb_spec n 0); lia. }
    unfold incremented in Hnew. rewrite Hproto in Hnew. rewrite Hnew.
    rewrite IH by (right; eexists; apply lookup_insert_eq).
    rewrite lookup_insert_eq. cbn [own_number].
    destruct (Z.eqb_spec (1 + c) 0); [lia|].
    destruct (Z.eqb_spec c 0) as [Hz|_]; f_equal; f_equal; lia.
  - assert (Hsame : assigned own (domain a) (incremented own (domain a)) !! d = own !! d).
    { unfold assigned. destruct (String.eqb (domain a) "__proto__"); [reflexivity|].
      now apply lookup_insert_ne. }
    cbv zeta. rewrite IH by (rewrite Hsame; exact Hown).
    rewrite Hsame, Z.add_0_l. reflexivity.
Qed.

Lemma byDomain_fold_proto (agents : list Agent) (own : gmap string PropertyValue) :
  fold_left (fun (byDomain : gmap string PropertyValue) agent =>
               let domain := domain agent in
               assigned byDomain domain (incremented byDomain domain))
            agents own !! "__proto__"
  = own !! "__proto__".
Proof.
  revert own. induction agents as [|a l IH]; intros own; [reflexivity|].
  cbn [fold_left]. cbv zeta. rewrite IH. unfold assigned.
  destruct (String.eqb_spec (domain a) "__proto__") as [_|Hne]; [reflexivity|].
  now apply lookup_insert_ne.
Qed.

(** X17: when every task result is successful, [averageTaskDuration] is the
    mean of the durations as the code's arithmetic gives it: the durations
    (a missing one counting as 0) added to 0 one binary64 addition at a
    time in the order of the results, and that sum divided by the number of
    results; it is 0 when there is no result. This is the mean over the
    successful results, so the defect of C7 shows only where a result has
    failed. *)
Theorem averageTaskDuration_is_mean_when_all_succeed
        (agents : list Agent) (taskResults : list TaskResult) :
  forallb success taskResults = true ->
  averageTaskDuration (getAgentStatistics agents taskResults)
  = (if 0 <? Z.of_nat (length taskResults)
     then PrimFloat.div
            (fold_left (fun sum result =>
                          PrimFloat.add sum
                            (JS.float_of_Z (number_or (res_duration result) 0)))
                       taskResults 0%float)
            (JS.float_of_Z (Z.of_nat (length taskResults)))
     else 0%float)
  /\ averageTaskDuration (getAgentStatistics agents taskResults)
     = mean_successful_duration taskResults.
Proof.
  intros Hall.
  assert (Hf : List.filter success taskResults = taskResults).
  { induction taskResults as [|r l IH]; simpl in *; [reflexivity|].
    apply andb_true_iff in Hall as [Hr Hl]. rewrite Hr, (IH Hl). reflexivity. }
  rewrite averageTaskDuration_unfold. unfold mean_successful_duration, count.
  rewrite Hf. split; reflexivity.
Qed.

Lemma averageTaskDuration_is_mean_when_all_succeed_witness :
  averageTaskDuration (getAgentStatistics small_registry all_successful) = 15%float.
Proof.
  rewrite (proj1 (averageTaskDuration_is_mean_when_all_succeed
                    small_registry all_successful eq_refl)).
  reflexivity.
Defined.

Lemma append_assoc (s1 s2 s3 : string) : (s1 +:+ s2) +:+ s3 = s1 +:+ (s2 +:+ s3).
Proof.
  induction s1 as [|c s1 IH]; [reflexivity|].
  change (String c ((s1 +:+ s2) +:+ s3) = String c (s1 +:+ (s2 +:+ s3))). now f_equal.
Qed.

Lemma native_function_text_nonempty (name rest : string) :
  String.eqb (native_function_text name +:+ rest) "" = false.
Proof. reflexivity. Qed.

(** A domain that names a function of [Object.prototype]: the first lookup
    finds the function, and every round appends a [1] to its text. *)
Lemma byDomain_fold_function (d name : string) (agents : list Agent)
      (own : gmap string PropertyValue) (k : nat) :
  Object_prototype_function d = Some name ->
  own !! d = (if k is O then None
              else Some (PString (native_function_text name +:+ ones k))) ->
  fold_left (fun (byDomain : gmap string PropertyValue) agent =>
               let domain := domain agent in
               assigned byDomain domain (incremented byDomain domain))
            agents own !! d
  = let c := (k + length (List.filter (fun a => String.eqb (domain a) d) agents))%nat in
    if c is O then None else Some (PString (native_function_text name +:+ ones c)).
Proof.
  intros Hf.
  assert (Hproto : String.eqb d "__proto__" = false).
  { destruct (String.eqb_spec d "__proto__") as [->|]; [discriminate | reflexivity]. }
  revert own k. induction agents as [|a l IH]; intros own k Hown.
  - cbn [fold_left List.filter length]. cbv zeta. now rewrite Nat.add_0_r.
  - cbn [fold_left List.filter]. cbv zeta.
    destruct (String.eqb_spec (domain a) d) as [Heq|Hne].
    + rewrite Heq. cbn [length].
      rewrite (IH _ (S k)).
      * cbv zeta. now replace (S k + length (List.filter (fun a0 => String.eqb (domain a0) d) l))%nat
          with (k + S (length (List.filter (fun a0 => String.eqb (domain a0) d) l)))%nat by lia.
      * unfold assigned, incremented. rewrite Hproto, lookup_insert_eq, Hown.
        destruct k as [|k'].
        -- rewrite Hf. reflexivity.
        -- rewrite native_function_text_nonempty, append_assoc. reflexivity.
    + rewrite (IH _ k); [reflexivity|].
      unfold assigned. destruct (String.eqb (domain a) "__proto__"); [exact Hown|].
      rewrite lookup_insert_ne by exact Hne. exact Hown.
Qed.

(** X16: what [byDomain] holds for a domain [d] carried by [n] agents.
    If [d] names no member of [Object.prototype], it is the number [n] when
    there is such an agent, and no entry otherwise. If [d] names a function
    of [Object.prototype], the first lookup finds that function instead of
    nothing, so the entry is not a count but a string: the text of the
    function followed by [n] digits [1]. And a domain named [__proto__]
    never gets an entry, however many agents carry it. *)
Theorem getAgentStatistics_byDomain (agents : list Agent)
        (taskResults : list TaskResult) (d : string) :
  let n := count (fun a => String.eqb (domain a) d) agents in
  (inherited d = false ->
   byDomain (getAgentStatistics agents taskResults) !! d
   = if n =? 0 then None else Some (PNumber n))
  /\ (forall name : string,
        Object_prototype_function d = Some name ->
        byDomain (getAgentStatistics agents taskResults) !! d
        = if n =? 0 then None
          else Some (PString (native_function_text name +:+ ones (Z.to_nat n))))
  /\ byDomain (getAgentStatistics agents taskResults) !! "__proto__" = None.
Proof.
  cbv zeta. unfold getAgentStatistics. cbn [byDomain]. split; [|split].
  - intros Hd. rewrite (byDomain_fold d agents ∅ Hd (or_introl (lookup_empty d))).
    rewrite lookup_empty. cbn [own_number]. destruct (_ =? 0); reflexivity.
  - intros name Hf.
    rewrite (byDomain_fold_function d name agents ∅ 0 Hf (lookup_empty d)).
    cbv zeta. unfold count. rewrite Nat2Z.id. cbn [Nat.add].
    destruct (length _); reflexivity.
  - rewrite byDomain_fold_proto. apply lookup_empty.
Qed.

Lemma getAgentStatistics_byDomain_witness :
  byDomain (getAgentStatistics small_registry []) !! "memory" = Some (PNumber 1)
  /\ byDomain (getAgentStatistics small_registry []) !! "learning" = None
  /\ byDomain (getAgentStatistics prototype_registry []) !! "constructor"
     = Some (PString "function Object() { [native code] }11")
  /\ byDomain (getAgentStatistics prototype_registry []) !! "__proto__" = None.
Proof.
  split; [|split; [|split]].
  - apply (proj1 (getAgentStatistics_byDomain small_registry [] "memory")). reflexivity.
  - apply (proj1 (getAgentStatistics_byDomain small_registry [] "learning")). reflexivity.
  - apply (proj1 (proj2 (getAgentStatistics_byDomain prototype_registry [] "constructor"))
             "Object").
    reflexivity.
  - apply (proj2 (proj2 (getAgentStatistics_byDomain prototype_registry [] "memory"))).
Defined.

(** ** Swarm health *)

Lemma compare_between (a b m : positive) :
  (b <= a)%positive ->
  Pos.compare_cont Eq a m = Lt ->
  Pos.compare_cont Eq m b <> Lt.
Proof.
  intros Hab H1 H2.
  change (a < m)%positive in H1. change (m < b)%positive in H2. lia.
Qed.

(** A binary64 number above 90 is not below 80. *)
Lemma above_90_not_below_80 (x : float) :
  PrimFloat.ltb 90%float x = true -> PrimFloat.ltb x 80%float = false.
Proof.
  rewrite !ltb_spec.
  change (Prim2SF 90%float) with (S754_finite false 6333186975989760 (-46)).
  change (Prim2SF 80%float) with (S754_finite false 5629499534213120 (-46)).
  destruct (Prim2SF x) as [s|s| |s m e]; unfold SFltb, SFcompare.
  - destruct s; discriminate.
  - destruct s; [discriminate | reflexivity].
  - discriminate.
  - destruct s; [discriminate|].
    destruct (Z.compare_spec (-46) e) as [<-|Hlt|Hgt].
    + rewrite Z.compare_refl.
      pose proof (compare_between 6333186975989760 5629499534213120 m) as Hc.
      destruct (Pos.compare_cont Eq 6333186975989760 m); try discriminate.
      intros _. destruct (Pos.compare_cont Eq m 5629499534213120); try reflexivity.
      exfalso. apply Hc; [|reflexivity|reflexivity].
      apply Pos.leb_le. vm_compute. reflexivity.
    + intros _. destruct (Z.compare_spec e (-46)); try reflexivity; lia.
    + discriminate.
Qed.

(** X18: the advisories of [getSwarmHealth] are consistent with its
    verdict. The unhealthy advisory is emitted exactly when [healthy] is
    false; a registry without an idle or busy agent (an empty one included)
    is unhealthy; and whenever the near-capacity advisory is emitted the
    swarm is reported unhealthy and the unhealthy advisory comes with it. *)
Theorem getSwarmHealth_advisories (agents : list Agent) :
  let h := getSwarmHealth agents in
  (unhealthy_advisory ∈ recommendedActions h <-> healthy h = false)
  /\ (activeAgents h = 0 -> healthy h = false)
  /\ (near_capacity_advisory ∈ recommendedActions h ->
      healthy h = false /\ unhealthy_advisory ∈ recommendedActions h).
Proof.
  cbv zeta. unfold getSwarmHealth.
  cbn [recommendedActions healthy activeAgents].
  set (load := raw_loadPercentage agents).
  set (act := count (fun agent => has_status idle agent || has_status busy agent) agents).
  pose proof (above_90_not_below_80 load) as Hfl.
  destruct (PrimFloat.ltb 90 load) eqn:H90.
  - rewrite (Hfl eq_refl). cbn [andb negb].
    destruct (PrimFloat.ltb (JS.float_of_Z act) _); cbn [app];
      rewrite ?elem_of_cons, ?elem_of_nil; intuition discriminate.
  - destruct (PrimFloat.ltb load 80); cbn [andb].
    + destruct (Z.ltb_spec 0 act) as [Ha|Ha]; cbn [negb];
        destruct (PrimFloat.ltb (JS.float_of_Z act) _); cbn [app];
        rewrite ?elem_of_cons, ?elem_of_nil;
        unfold near_capacity_advisory, low_utilization_advisory, unhealthy_advisory;
        (repeat split; intros; try lia; try discriminate; intuition discriminate).
    + cbn [negb]. destruct (PrimFloat.ltb (JS.float_of_Z act) _); cbn [app];
        rewrite ?elem_of_cons, ?elem_of_nil;
        unfold near_capacity_advisory, low_utilization_advisory, unhealthy_advisory;
        intuition discriminate.
Qed.

Lemma getSwarmHealth_advisories_witness :
  healthy (getSwarmHealth []) = false
  /\ recommendedActions (getSwarmHealth []) = [unhealthy_advisory].
Proof.
  split; [|reflexivity].
  apply (proj1 (proj2 (getSwarmHealth_advisories []))). reflexivity.
Defined.

(** ** Queue status *)

Lemma Math_max_upper (x : Z) (xs : list Z) :
  x <= Math_max x xs /\ (forall y, y ∈ xs -> y <= Math_max x xs).
Proof.
  unfold Math_max. revert x. induction xs as [|z xs IH]; intros x; simpl.
  - split; [lia|]. intros y Hy. inversion Hy.
  - destruct (IH (Z.max x z)) as [H1 H2]. split; [lia|].
    intros y Hy. apply elem_of_cons in Hy as [->|Hy]; [lia | auto].
Qed.

Lemma Math_max_attained (x : Z) (xs : list Z) : Math_max x xs ∈ x :: xs.
Proof.
  unfold Math_max. revert x. induction xs as [|z xs IH]; intros x; simpl.
  - left.
  - specialize (IH (Z.max x z)). apply elem_of_cons in IH as [->|IH].
    + destruct (Z.max_spec x z) as [[_ ->]|[_ ->]]; [right; left | left].
    + right. right. exact IH.
Qed.

(** X19: [longestWaitTime] is the largest of the wait times that enter the
    average, that is of [startTime - submissionTime] over the results whose
    two time stamps are both truthy: it bounds each of them and is one of
    them; with no such result, the longest and the average wait are 0. The
    completed and failed counts add up to the results flagged completed. *)
Theorem getTaskQueueStatus_waits (taskResults : list QueueResult) :
  let q := getTaskQueueStatus taskResults in
  (forall wait, wait ∈ waitTimes taskResults -> wait <= longestWaitTime q)
  /\ (waitTimes taskResults <> [] -> longestWaitTime q ∈ waitTimes taskResults)
  /\ (waitTimes taskResults = [] ->
      longestWaitTime q = 0 /\ averageQueueWaitTime q = 0%float)
  /\ completedTasks q + failedTasks q = count q_completed taskResults.
Proof.
  cbv zeta. unfold getTaskQueueStatus.
  cbn [longestWaitTime averageQueueWaitTime completedTasks failedTasks].
  split; [|split; [|split]].
  - intros wait Hw. destruct (waitTimes taskResults) as [|x xs]; [inversion Hw|].
    destruct (Math_max_upper x xs) as [H1 H2].
    apply elem_of_cons in Hw as [->|Hw]; auto.
  - intros Hne. destruct (waitTimes taskResults) as [|x xs]; [congruence|].
    apply Math_max_attained.
  - intros ->. split; reflexivity.
  - induction taskResults as [|r l IH]; [reflexivity|].
    rewrite !count_cons. destruct (q_completed r), (q_success r); cbn; lia.
Qed.

Lemma getTaskQueueStatus_waits_witness :
  waitTimes queue_sample = [50; 300]
  /\ longestWaitTime (getTaskQueueStatus queue_sample) ∈ waitTimes queue_sample
  /\ longestWaitTime (getTaskQueueStatus queue_sample) = 300.
Proof.
  split; [reflexivity|]. split; [|reflexivity].
  apply (proj1 (proj2 (getTaskQueueStatus_waits queue_sample))). discriminate.
Defined.


End AgenticQueriesProofs.

(* ===================================================================== *)
(** * Properties of the orchestrator class *)
(* ===================================================================== *)

Module OmegaClassProofs.
Import OmegaClass.

(** X23: the class never starts the evolution timer. [startEvolutionCycle]
    is declared twice; the declaration that registers the 60000 ms interval
    for [executeEvolutionCycle] is the earlier one, and a call finds the
    later one, which only reports. So phases 7 and 8 of [initialize()]
    register one interval, the 120000 ms peer poll; the callback that runs
    [executeEvolutionCycle] is registered neither by them nor by the route
    that starts evolution, and the cycle counter is left as it was. The
    route answers with the counter as it is, the status [running] and the
    fixed figures. (The earlier declaration, were it the one called, would
    register the interval.) *)
Theorem evolution_timer_never_started (o : Instance) :
  method "startEvolutionCycle" = Some (Report startEvolutionCycle_public)
  /\ (exists o' : Instance,
        initialize_phases_7_8 o = Some o'
        /\ intervals o' = (intervals o ++ [(coordination_callback, 120000)])%list
        /\ learningCycles o' = learningCycles o
        /\ (forall period : Z,
              (evolution_callback, period) ∈ intervals o' ->
              (evolution_callback, period) ∈ intervals o))
  /\ POST o = Some (mkEvolutionStatusReport (learningCycles o) "running" 30 [] 5
                                            15.3%float)
  /\ (evolution_callback, 60000) ∈ intervals (startEvolutionCycle_private o).
Proof.
  split; [reflexivity|]. split; [|split; [reflexivity|]].
  - exists (startDualLLMCoordination o). repeat split.
    intros period Hin. cbn in Hin.
    apply elem_of_app in Hin as [Hin|Hin]; [exact Hin|].
    apply list_elem_of_singleton in Hin. discriminate.
  - cbn. apply elem_of_app. right. now apply list_elem_of_singleton.
Qed.

(** From the instance as constructed: after phases 7 and 8 the one interval
    is the peer poll, and the counter is 0. *)
Lemma evolution_timer_never_started_witness :
  (exists o' : Instance,
      initialize_phases_7_8 constructed = Some o'
      /\ intervals o' = [(coordination_callback, 120000)]
      /\ learningCycles o' = 0
      /\ (forall period : Z,
            (evolution_callback, period) ∈ intervals o' ->
            (evolution_callback, period) ∈ intervals constructed))
  /\ POST constructed = Some (mkEvolutionStatusReport 0 "running" 30 [] 5 15.3%float).
Proof.
  split.
  - exact (proj1 (proj2 (evolution_timer_never_started constructed))).
  - exact (proj1 (proj2 (proj2 (evolution_timer_never_started constructed)))).
Defined.

End OmegaClassProofs.

(* ===================================================================== *)
(** * Properties of the phases of an evolution cycle *)
(* ===================================================================== *)

Module EvolutionProofs.
Import Omega Evolution.

Lemma applyEvolutionStrategies_fold (strategies : list EvolutionStrategy)
      (results : ApplyResults) (console : list string) :
  (fold_left
     (fun (acc : ApplyResults * list string) strategy =>
        let '(results, console) := acc in
        (mkApplyResults (apply_success results + 1) (apply_failed results)
                        (apply_improvements results ++ [strategy]),
         (console ++ handler_log strategy
            ++ ["OMEGA: Applied " +:+ layer strategy +:+ " strategy: "
                +:+ type strategy])%list))
     strategies (results, console)).1
  = mkApplyResults (apply_success results + Z.of_nat (length strategies))
                   (apply_failed results)
                   (apply_improvements results ++ strategies).
Proof.
  revert results console. induction strategies as [|x l IH]; intros results console.
  - simpl. rewrite Z.add_0_r, app_nil_r. now destruct results.
  - cbn [fold_left]. rewrite IH. cbn [apply_success apply_failed apply_improvements length].
    rewrite <- app_assoc. f_equal. lia.
Qed.

(** X20: applying strategies never counts a failure. Every strategy handed
    to [applyEvolutionStrategies] is counted as a success and listed among
    the improvements, in order, also one whose layer has no handler; so the
    evaluation reports as many successful strategies as there were
    opportunities, no failed one, and the fixed improvement of 15.3. *)
Theorem applyEvolutionStrategies_all_succeed :
  (forall strategies : list EvolutionStrategy,
      (applyEvolutionStrategies strategies).1
      = mkApplyResults (Z.of_nat (length strategies)) 0 strategies)
  /\ (forall opportunities : list OptimizationOpportunity,
        let evaluation :=
          evaluateEvolution
            (applyEvolutionStrategies (generateEvolutionStrategies opportunities)).1 in
        successfulStrategies evaluation = Z.of_nat (length opportunities)
        /\ failedStrategies evaluation = 0
        /\ eval_improvementPercentage evaluation = 15.3%float).
Proof.
  assert (H : forall strategies : list EvolutionStrategy,
             (applyEvolutionStrategies strategies).1
             = mkApplyResults (Z.of_nat (length strategies)) 0 strategies).
  { intros strategies. unfold applyEvolutionStrategies.
    rewrite applyEvolutionStrategies_fold. reflexivity. }
  split; [exact H|].
  intros opportunities. cbv zeta. rewrite H. unfold generateEvolutionStrategies.
  rewrite length_map. repeat split.
Qed.

Lemma identified_on_reported_metrics_aux (o : Orchestrator) (t : Tracker) (now : Z) :
  map opp_type (identifyOptimizationOpportunities (analyzeSystemPerformance o t now))
  = ((if PrimFloat.ltb 0.8%float (identity_score t)
      then ["optimize_emergence_detection"] else [])
     ++ ["improve_experience_quality"]
     ++ (if PrimFloat.ltb (evolutionRate o) 0.15%float
         then ["accelerate_evolution"] else []))%list.
Proof.
  unfold identifyOptimizationOpportunities, analyzeSystemPerformance.
  cbn [consciousness memory learning security cqm successRate learning_evolutionRate keys].
  destruct (PrimFloat.ltb 0.8 (identity_score t));
    destruct (PrimFloat.ltb (evolutionRate o) 0.15); reflexivity.
Qed.

(** X21: on the metrics that [analyzeSystemPerformance] reports, whatever
    the consciousness layer says and whatever the state of the
    orchestrator, the opportunities are, in this order: emergence
    detection if the identity score is above 0.8, experience quality
    always (the reported success rate is 0.843), acceleration if the
    evolution rate is below 0.15; key consolidation is never among them
    (the reported key count is 10). *)
Theorem identified_on_reported_metrics (o : Orchestrator) (t : Tracker) (now : Z) :
  map opp_type (identifyOptimizationOpportunities (analyzeSystemPerformance o t now))
  = ((if PrimFloat.ltb 0.8%float (identity_score t)
      then ["optimize_emergence_detection"] else [])
     ++ ["improve_experience_quality"]
     ++ (if PrimFloat.ltb (evolutionRate o) 0.15%float
         then ["accelerate_evolution"] else []))%list
  /\ "improve_experience_quality"
     ∈ map opp_type (identifyOptimizationOpportunities (analyzeSystemPerformance o t now))
  /\ "consolidate_keys"
     ∉ map opp_type (identifyOptimizationOpportunities (analyzeSystemPerformance o t now)).
Proof.
  rewrite identified_on_reported_metrics_aux.
  split; [reflexivity|].
  destruct (PrimFloat.ltb 0.8 (identity_score t));
    destruct (PrimFloat.ltb (evolutionRate o) 0.15); cbn [app];
    rewrite ?elem_of_cons, ?elem_of_nil; intuition discriminate.
Qed.



End EvolutionProofs.
